(** * The SGNL generic webhook job: [invoke], [error] and [halt]

    A shallow embedding of the two implementations the repository ships,
    [dist/index.js] (modules [Dist] and [DistUrl]) and [src/script.mjs]
    (module [Script]), of the development runner (module [DevRunner]), and
    the properties of their handlers.

    JavaScript objects used as records (params, header sets, returned job
    results, env, secrets) are finite maps from property names to values.
    Effects (the outbound HTTP request, the back-off sleep) are recorded in
    a trace threaded through a small state-and-exception monad.  Console
    output is not part of the trace: no handler result depends on it. *)

From stdpp Require Import gmap strings list fin_maps.
From Stdlib Require Import ZArith Ascii DecimalString.

#[local] Set Warnings "-register-all".
#[local] Open Scope Z_scope.

(** ** JavaScript values *)

(** The values a job runner hands over as JSON-like data.  Numbers are the
    integers (status codes, array indices); a nested object keeps its
    properties in insertion order. *)
Inductive value : Type :=
  | VUndefined
  | VNull
  | VBool (b : bool)
  | VNum (z : Z)
  | VStr (s : string)
  | VArr (l : list value)
  | VObj (o : list (string * value)).

(** [ToBoolean]: what [if (x)], [!x], [x || y] and [x && y] test. *)
Definition truthy (v : value) : bool :=
  match v with
  | VUndefined | VNull => false
  | VBool b => b
  | VNum z => negb (z =? 0)
  | VStr s => negb (String.eqb s EmptyString)
  | VArr _ | VObj _ => true
  end.

(** [a || b] on values. *)
Definition js_or (a b : value) : value := if truthy a then a else b.

(** Decimal text of an integer, as [String(n)] and template literals give. *)
Definition string_of_Z (z : Z) : string := NilZero.string_of_int (Z.to_int z).

Definition string_of_nat (n : nat) : string := string_of_Z (Z.of_nat n).

Fixpoint join (sep : string) (l : list string) : string :=
  match l with
  | [] => EmptyString
  | [s] => s
  | s :: rest => s +:+ sep +:+ join sep rest
  end.

(** [ToString] on the values above: [String(v)], and what a template
    literal or [JSON.parse] applies to a non-string argument. *)
Fixpoint ToString (v : value) : string :=
  match v with
  | VUndefined => "undefined"
  | VNull => "null"
  | VBool true => "true"
  | VBool false => "false"
  | VNum z => string_of_Z z
  | VStr s => s
  | VArr l =>
      join "," (map (fun e => match e with
                              | VUndefined | VNull => EmptyString
                              | _ => ToString e
                              end) l)
  | VObj _ => "[object Object]"
  end.

(** Property read [o[k]] on an object kept as a property list. *)
Fixpoint assoc (k : string) (o : list (string * value)) : option value :=
  match o with
  | [] => None
  | (k', v) :: rest => if String.eqb k k' then Some v else assoc k rest
  end.

(** Destructuring and property reads on a record-like object: an absent
    property reads as [undefined]. *)
Definition get (o : gmap string value) (k : string) : value :=
  default VUndefined (o !! k).

(** [SameValueZero] against a primitive, the comparison of
    [Array.prototype.includes].  Objects and arrays compare by identity,
    which no searched-for primitive has. *)
Definition sameValueZero (x y : value) : bool :=
  match x, y with
  | VUndefined, VUndefined => true
  | VNull, VNull => true
  | VBool a, VBool b => Bool.eqb a b
  | VNum a, VNum b => a =? b
  | VStr a, VStr b => String.eqb a b
  | _, _ => false
  end.

Definition array_includes (l : list value) (x : value) : bool :=
  existsb (sameValueZero x) l.

(** ** Strings

    A string is the bytes of its UTF-8 text, a lone surrogate (which a
    JavaScript string may hold) being written as the three bytes its code
    would take.  A pattern of ASCII characters occurs in the bytes where it
    occurs in the UTF-16 code units that JavaScript searches. *)

Fixpoint starts_with (p s : string) : bool :=
  match p, s with
  | EmptyString, _ => true
  | String a p', String b s' => Ascii.eqb a b && starts_with p' s'
  | String _ _, EmptyString => false
  end.

(** [s.includes(p)]: case-sensitive substring search. *)
Fixpoint str_includes (p s : string) : bool :=
  starts_with p s ||
  match s with
  | EmptyString => false
  | String _ s' => str_includes p s'
  end.

(** A byte that continues a multi-byte character. *)
Definition is_continuation (c : ascii) : bool :=
  ((128 <=? N_of_ascii c) && (N_of_ascii c <? 192))%N.

(** The three bytes of a code unit from U+0800 on. *)
Definition three_bytes (u : N) : string :=
  String (ascii_of_N (224 + u / 4096))
    (String (ascii_of_N (128 + (u / 64) mod 64))
       (String (ascii_of_N (128 + u mod 64)) EmptyString))%N.

(** The UTF-16 code units of a string, each as a string of its own: one for
    a character of one, two or three bytes, the two surrogates for a
    character of four.  (A byte that starts no well-formed character, which
    the text of no JavaScript string holds, counts for one.) *)
Fixpoint code_units (s : string) : list string :=
  match s with
  | EmptyString => []
  | String a s1 =>
      let n := N_of_ascii a in
      let alone := String a EmptyString :: code_units s1 in
      if (n <? 192)%N then alone
      else
        match s1 with
        | String b s2 =>
            if negb (is_continuation b) then alone
            else if (n <? 224)%N then
              String a (String b EmptyString) :: code_units s2
            else
              match s2 with
              | String c s3 =>
                  if negb (is_continuation c) then alone
                  else if (n <? 240)%N then
                    String a (String b (String c EmptyString)) :: code_units s3
                  else
                    match s3 with
                    | String d s4 =>
                        if negb (is_continuation d) then alone
                        else
                          let code :=
                            ((n mod 8) * 262144 + (N_of_ascii b mod 64) * 4096
                             + (N_of_ascii c mod 64) * 64 + N_of_ascii d mod 64)%N in
                          let v := (code - 65536)%N in
                          three_bytes (55296 + v / 1024)
                          :: three_bytes (56320 + v mod 1024)
                          :: code_units s4
                    | EmptyString => alone
                    end
              | EmptyString => alone
              end
        | EmptyString => alone
        end
  end.

(** [s.replace(/\/$/, '')]: [$] matches at the end of the input only, so at
    most the last character goes. *)
Fixpoint replace_trailing_slash (s : string) : string :=
  match s with
  | EmptyString => EmptyString
  | String c EmptyString => if Ascii.eqb c "/" then EmptyString else s
  | String c s' => String c (replace_trailing_slash s')
  end.

(** [s.replace(/^\//, '')]. *)
Definition replace_leading_slash (s : string) : string :=
  match s with
  | String c s' => if Ascii.eqb c "/" then s' else s
  | EmptyString => EmptyString
  end.

(** ** Exceptions, effects and the platform *)

(** What a handler throws: an [Error] object (with its constructor name and
    message), or any other value ([throw error] in [src/script.mjs]). *)
Inductive exn : Type :=
  | JsError (name : string) (message : string)
  | JsThrown (v : value).

Definition Error (message : string) : exn := JsError "Error" message.
Definition TypeError (message : string) : exn := JsError "TypeError" message.

Inductive outcome (A : Type) : Type :=
  | Return (a : A)
  | Throw (e : exn).
Arguments Return {A} a.
Arguments Throw {A} e.

(** The options object handed to the HTTP client. *)
Record RequestOptions := {
  ro_method : value;
  ro_headers : gmap string value;
  ro_body : value  (* [undefined] when the property is not set *)
}.

Record Response := {
  statusCode : Z;
  response_headers : value
}.

Inductive http_answer : Type :=
  | Rejected (e : exn)
  | Resolved (response : Response) (body : string).

(** One entry per I/O step, in program order. *)
Inductive event : Type :=
  | EvSleep (ms : Z)
  | EvHttp (url : value) (options : RequestOptions) (answer : http_answer).

Definition is_http (e : event) : bool :=
  match e with EvHttp _ _ _ => true | EvSleep _ => false end.

(** Number of HTTP requests in a trace. *)
Definition http_count (t : list event) : nat := length (filter is_http t).

(** What the handlers take from their host: the JSON built-ins, the
    upper-casing of strings (the case mapping of Unicode, which is not
    spelled out here), the HTTP client and the clock.  The client and the
    clock may answer differently as the trace grows. *)
Class Platform := {
  JSON_parse : string -> string + value;   (* [inl m]: SyntaxError with message [m] *)
  JSON_stringify : value -> option string; (* [None]: [undefined] *)
  toUpperCase : string -> string;          (* [String.prototype.toUpperCase] *)
  http : list event -> value -> RequestOptions -> http_answer;
  now : list event -> string               (* [new Date().toISOString()] *)
}.

(** Computations: the trace so far goes in, a result or an exception comes
    out with the extended trace. *)
Definition M (A : Type) : Type := list event -> outcome A * list event.

#[global] Instance M_ret : MRet M := fun A a t => (Return a, t).

#[global] Instance M_bind : MBind M := fun A B f m t =>
  match m t with
  | (Return a, t') => f a t'
  | (Throw e, t') => (Throw e, t')
  end.

Definition throw {A} (e : exn) : M A := fun t => (Throw e, t).

(** [try { m } catch (e) { h e }]. *)
Definition try_catch {A} (m : M A) (h : exn -> M A) : M A := fun t =>
  match m t with
  | (Throw e, t') => h e t'
  | r => r
  end.

(** [await new Promise(resolve => setTimeout(resolve, ms))]. *)
Definition sleep (ms : Z) : M unit := fun t => (Return tt, t ++ [EvSleep ms]).

Definition option_value (o : option string) : value :=
  match o with Some s => VStr s | None => VUndefined end.

(** [e.message] of a caught exception, as a template literal prints it. *)
Definition caught_message (e : exn) : M string :=
  match e with
  | JsError _ m => mret m
  | JsThrown VUndefined =>
      throw (TypeError "Cannot read properties of undefined (reading 'message')")
  | JsThrown VNull =>
      throw (TypeError "Cannot read properties of null (reading 'message')")
  | JsThrown (VObj o) => mret (ToString (default VUndefined (assoc "message" o)))
  | JsThrown _ => mret "undefined"
  end.

(** [recv.includes(x)], for the receivers that have the method. *)
Definition call_includes (what : string) (recv x : value) : M bool :=
  match recv with
  | VStr s => mret (str_includes (ToString x) s)
  | VArr l => mret (array_includes l x)
  | VUndefined =>
      throw (TypeError "Cannot read properties of undefined (reading 'includes')")
  | VNull =>
      throw (TypeError "Cannot read properties of null (reading 'includes')")
  | _ => throw (TypeError (what +:+ ".includes is not a function"))
  end.

(** [recv.toUpperCase()]. *)
Definition call_toUpperCase `{Platform} (what : string) (recv : value) : M string :=
  match recv with
  | VStr s => mret (toUpperCase s)
  | VUndefined =>
      throw (TypeError "Cannot read properties of undefined (reading 'toUpperCase')")
  | VNull =>
      throw (TypeError "Cannot read properties of null (reading 'toUpperCase')")
  | _ => throw (TypeError (what +:+ ".toUpperCase is not a function"))
  end.

(** [recv.replace(re, '')] for one of the two slash patterns. *)
Definition call_replace (what : string) (f : string -> string) (recv : value) : M string :=
  match recv with
  | VStr s => mret (f s)
  | VUndefined =>
      throw (TypeError "Cannot read properties of undefined (reading 'replace')")
  | VNull =>
      throw (TypeError "Cannot read properties of null (reading 'replace')")
  | _ => throw (TypeError (what +:+ ".replace is not a function"))
  end.

Fixpoint index_props (i : nat) (l : list value) : list (string * value) :=
  match l with
  | [] => []
  | v :: rest => (string_of_nat i, v) :: index_props (S i) rest
  end.

(** The own enumerable properties [Object.assign] copies from a source:
    those of an object, the indices of an array or of the code units of a
    string, none of the other primitives. *)
Definition own_props (v : value) : list (string * value) :=
  match v with
  | VObj o => o
  | VArr l => index_props 0 l
  | VStr s => index_props 0 (map VStr (code_units s))
  | _ => []
  end.

(** [Object.assign(target, source)] on a plain object [target]: every own
    property of the source is assigned in turn, later ones overwriting.
    Assigning the name [__proto__] runs the setter of [Object.prototype],
    which makes no own property: it replaces the prototype of the target
    when the value is an object, an array or [null], and does nothing
    otherwise.  These are the own properties of the target afterwards, the
    ones a request sends. *)
Definition Object_assign (target : gmap string value) (source : value) : gmap string value :=
  foldl (fun m kv => if String.eqb kv.1 "__proto__" then m else <[kv.1 := kv.2]> m)
    target (own_props source).

(** The prototype [Object.assign(target, source)] gives the target, when it
    replaces it. *)
Definition assigned_prototype (source : value) : option value :=
  foldl (fun p kv =>
           if String.eqb kv.1 "__proto__" then
             match kv.2 with
             | VObj _ | VArr _ | VNull => Some kv.2
             | _ => p
             end
           else p)
    None (own_props source).

(** A header object that is read back after it was built: its own
    properties and, when [Object.assign] replaced it, its prototype. *)
Record HeaderObject := {
  own_properties : gmap string value;
  prototype : option value
}.

Definition assign (target : HeaderObject) (source : value) : HeaderObject :=
  {| own_properties := Object_assign (own_properties target) source;
     prototype := match assigned_prototype source with
                  | Some p => Some p
                  | None => prototype target
                  end |}.

(** [headers[k]] for a name the built-in prototypes do not define (a header
    name): the own property, or else the one inherited from the replaced
    prototype. *)
Definition read_header (headers : HeaderObject) (k : string) : value :=
  match own_properties headers !! k with
  | Some v => v
  | None =>
      match prototype headers with
      | Some (VObj o) => default VUndefined (assoc k o)
      | Some (VArr l) =>
          if String.eqb k "length" then VNum (Z.of_nat (length l))
          else default VUndefined (assoc k (index_props 0 l))
      | _ => VUndefined
      end
  end.

(** The execution context the job runner supplies ("Execution context with
    env, secrets, outputs"): [env] and [secrets] are always objects, a
    context without them is not a value of this record. *)
Record ExecutionContext := {
  env : gmap string value;
  secrets : gmap string value;
  outputs : value;
  partial_results : value  (* [undefined] when absent *)
}.

Definition with_headers (o : RequestOptions) (h : gmap string value) : RequestOptions :=
  {| ro_method := ro_method o; ro_headers := h; ro_body := ro_body o |}.

Definition with_body (o : RequestOptions) (b : value) : RequestOptions :=
  {| ro_method := ro_method o; ro_headers := ro_headers o; ro_body := b |}.

(** [error.message] on a value: reading a property of [undefined] or [null]
    throws, a missing property reads as [undefined]. *)
Definition read_message (v : value) : M value :=
  match v with
  | VUndefined =>
      throw (TypeError "Cannot read properties of undefined (reading 'message')")
  | VNull =>
      throw (TypeError "Cannot read properties of null (reading 'message')")
  | VObj o => mret (default VUndefined (assoc "message" o))
  | _ => mret VUndefined
  end.

(** [new Date().toISOString()]. *)
Definition clock `{Platform} : M string := fun t => (Return (now t), t).

(** ** [dist/index.js] *)

Module Dist.
Section handlers.
Context `{Platform}.

(** [makeHttpRequest(url, options)] hands [options.method], [options.headers]
    and, when truthy, [options.body] to the host's HTTP module and settles
    with the response and its body text, or rejects (bad URL, no HTTP module,
    socket error).  The host's part is [http]; the call is one trace entry. *)
Definition makeHttpRequest (url : value) (options : RequestOptions)
    : M (Response * string) := fun t =>
  let answer := http t url options in
  (match answer with
   | Rejected e => Throw e
   | Resolved response body => Return (response, body)
   end, t ++ [EvHttp url options answer]).

(** The body [makeHttpRequest] writes: [if (options.body) req.write(options.body)]. *)
Definition written_body (options : RequestOptions) : option value :=
  if truthy (ro_body options) then Some (ro_body options) else None.

(** Lines 182-188: authentication from the secrets, first match only. *)
Definition apply_authentication (context : ExecutionContext)
    (headers : gmap string value) : gmap string value :=
  if truthy (get (secrets context) "AUTHORIZATION_HEADER") then
    <["Authorization" := get (secrets context) "AUTHORIZATION_HEADER"]> headers
  else if truthy (get (secrets context) "API_KEY") then
    <["X-API-Key" := get (secrets context) "API_KEY"]> headers
  else if truthy (get (secrets context) "BEARER_TOKEN") then
    <["Authorization" :=
        VStr ("Bearer " +:+ ToString (get (secrets context) "BEARER_TOKEN"))]> headers
  else headers.

(** [webhookJob.invoke(params, context)], lines 121-190: validation, URL
    resolution, body, custom headers and authentication.  Gives the target
    URL, the upper-cased method and the options of the request to send. *)
Definition build_request (params : gmap string value) (context : ExecutionContext)
    : M (value * string * RequestOptions) :=
  let method := get params "method" in
  let requestBody := get params "requestBody" in
  let requestHeaders := get params "requestHeaders" in
  let addressSuffix := get params "addressSuffix" in
  let addressOverride := get params "address" in
  (* Validate required parameters *)
  if negb (truthy method) then throw (Error "HTTP method is required") else
  (* Determine the target URL - address parameter is required *)
  let targetUrl := addressOverride in
  if negb (truthy targetUrl) then throw (Error "address parameter is required") else
  (* Apply address suffix if provided *)
  targetUrl ←
    (if truthy addressSuffix then
       baseUrl ← call_replace "targetUrl" replace_trailing_slash targetUrl;
       suffix ← call_replace "addressSuffix" replace_leading_slash addressSuffix;
       mret (VStr (baseUrl +:+ "/" +:+ suffix))
     else mret targetUrl);
  (* Prepare request options *)
  METHOD ← call_toUpperCase "method" method;
  let requestOptions :=
    {| ro_method := VStr METHOD;
       ro_headers := {[ "User-Agent" := VStr "sgnl-generic-webhook/1.0.0" ]};
       ro_body := VUndefined |} in
  (* Add request body if provided *)
  requestOptions ←
    (if truthy requestBody then
       match JSON_parse (ToString requestBody) with
       | inr _ =>
           mret (with_headers (with_body requestOptions requestBody)
                   (<["Content-Type" := VStr "application/json"]>
                      (ro_headers requestOptions)))
       | inl m => throw (Error ("Invalid JSON in requestBody: " +:+ m))
       end
     else mret requestOptions);
  (* Add custom headers if provided *)
  requestOptions ←
    (if truthy requestHeaders then
       match JSON_parse (ToString requestHeaders) with
       | inr customHeaders =>
           mret (with_headers requestOptions
                   (Object_assign (ro_headers requestOptions) customHeaders))
       | inl m => throw (Error ("Invalid JSON in requestHeaders: " +:+ m))
       end
     else mret requestOptions);
  (* Apply authentication if available *)
  mret (targetUrl, METHOD,
        with_headers requestOptions
          (apply_authentication context (ro_headers requestOptions))).

(** [webhookJob.invoke(params, context)]: the request of [build_request] is
    sent (lines 192-206) and the response classified (lines 208-238). *)
Definition invoke (params : gmap string value) (context : ExecutionContext)
    : M (gmap string value) :=
  let acceptedStatusCodes :=
    match get params "acceptedStatusCodes" with
    | VUndefined => VArr []
    | v => v
    end in
  '(targetUrl, METHOD, requestOptions) ← build_request params context;
  (* Make the HTTP request *)
  '(response, responseBody) ←
    try_catch (makeHttpRequest targetUrl requestOptions)
      (fun error =>
         m ← caught_message error;
         throw (Error ("HTTP request failed: " +:+ m)));
  (* Prepare response object *)
  processed_at ← clock;
  let jobResult : gmap string value :=
    {[ "status_code" := VNum (statusCode response);
       "body" := VStr responseBody;
       "headers" := response_headers response;
       "url" := targetUrl;
       "method" := VStr METHOD;
       "processed_at" := VStr processed_at ]} in
  (* Check if status code should be treated as success *)
  isAcceptedStatus ←
    call_includes "acceptedStatusCodes" acceptedStatusCodes
      (VNum (statusCode response));
  let isStandardSuccess :=
    (200 <=? statusCode response) && (statusCode response <? 300) in
  if isAcceptedStatus || isStandardSuccess then
    mret (jobResult ∪ {[ "status" := VStr "success" ]})
  else
    let errorMessage :=
      "HTTP request failed with status " +:+ string_of_Z (statusCode response) in
    mret (jobResult ∪ {[ "status" := VStr "http_error";
                         "error" := VStr errorMessage ]}).

(** [webhookJob.error(params, context)].  The retry calls whatever
    [webhookJob.invoke] is: [error_with] takes that handler, and [error] is
    the handler of the module as shipped. *)
Definition error_with
    (invoke : gmap string value -> ExecutionContext -> M (gmap string value))
    (params : gmap string value) (context : ExecutionContext)
    : M (gmap string value) :=
  let error := get params "error" in
  let method := get params "method" in
  let address := get params "address" in
  let targetUrl := js_or address (get (env context) "WEBHOOK_BASE_URL") in
  message ← read_message error;
  (* Handle rate limiting *)
  rate_limit ← call_includes "error.message" message (VStr "rate limit");
  rate_limited ←
    (if rate_limit : bool then mret true
     else call_includes "error.message" message (VStr "429"));
  if rate_limited : bool then
    _ ← sleep 5000;
    try_catch
      (let originalParams := delete "error" params in
       invoke originalParams context)
      (fun retryError =>
         m ← caught_message retryError;
         throw (Error ("Retry failed after rate limit backoff: " +:+ m)))
  else
  (* Handle network timeouts *)
  timeout ← call_includes "error.message" message (VStr "timeout");
  timed_out ←
    (if timeout : bool then mret true
     else call_includes "error.message" message (VStr "ETIMEDOUT"));
  if timed_out : bool then
    recovered_at ← clock;
    mret ({[ "status" := VStr "timeout_error";
             "method" := method;
             "url" := targetUrl;
             "recovery_method" := VStr "timeout_handling";
             "original_error" := message;
             "recovered_at" := VStr recovered_at;
             "recommendation" :=
               VStr "Consider increasing timeout or checking network connectivity"
          ]} : gmap string value)
  else
  (* Handle DNS resolution failures *)
  enotfound ← call_includes "error.message" message (VStr "ENOTFOUND");
  dns ←
    (if enotfound : bool then mret true
     else call_includes "error.message" message (VStr "DNS"));
  if dns : bool then
    recovered_at ← clock;
    mret ({[ "status" := VStr "dns_error";
             "method" := method;
             "url" := targetUrl;
             "recovery_method" := VStr "dns_failure_handling";
             "original_error" := message;
             "recovered_at" := VStr recovered_at;
             "recommendation" :=
               VStr "Verify the target URL is correct and accessible" ]}
          : gmap string value)
  else
  (* Cannot recover from this error *)
  throw (Error ("Unrecoverable webhook error: " +:+ ToString message)).

Definition error : gmap string value -> ExecutionContext -> M (gmap string value) :=
  error_with invoke.

(** [webhookJob.halt(params, context)]. *)
Definition halt (params : gmap string value) (context : ExecutionContext)
    : M (gmap string value) :=
  let reason := get params "reason" in
  let method := get params "method" in
  let address := get params "address" in
  let targetUrl := js_or address (get (env context) "WEBHOOK_BASE_URL") in
  halted_at ← clock;
  mret ({[ "status" := VStr "halted";
           "method" := js_or method (VStr "unknown");
           "url" := js_or targetUrl (VStr "unknown");
           "reason" := reason;
           "halted_at" := VStr halted_at;
           "cleanup_completed" := VBool true;
           "partial_results_logged" := VBool (truthy (partial_results context)) ]}
        : gmap string value).

End handlers.
End Dist.

(** ** [dist/index.js]: the URL fallback of [makeHttpRequest]

    On a host without a global [URL], [makeHttpRequest] reads the target
    with a regular expression (lines 27-39) and fills the options of the
    host's request from the parts (lines 64-70).  The host's HTTP module
    itself stays behind [http]. *)

Module DistUrl.

(** [s] without the prefix [p], when it starts with it. *)
Fixpoint strip_prefix (p s : string) : option string :=
  match p, s with
  | EmptyString, _ => Some s
  | String a p', String b s' => if Ascii.eqb a b then strip_prefix p' s' else None
  | String _ _, EmptyString => None
  end.

(** [[^\/]+] read greedily: the longest run of characters other than "/",
    and what follows it. *)
Fixpoint span_host (s : string) : string * string :=
  match s with
  | EmptyString => (EmptyString, EmptyString)
  | String c s' =>
      if Ascii.eqb c "/" then (EmptyString, s)
      else let '(host, rest) := span_host s' in (String c host, rest)
  end.

Definition line_separator : string :=
  String (ascii_of_nat 226) (String (ascii_of_nat 128) (String (ascii_of_nat 168) EmptyString)).

Definition paragraph_separator : string :=
  String (ascii_of_nat 226) (String (ascii_of_nat 128) (String (ascii_of_nat 169) EmptyString)).

(** [.*$]: [.] takes any character but a line terminator (LF, CR, U+2028,
    U+2029), so the rest of the input matches when it holds none. *)
Fixpoint dot_star_end (s : string) : bool :=
  match s with
  | EmptyString => true
  | String c s' =>
      if Ascii.eqb c "010" || Ascii.eqb c "013" then false
      else if starts_with line_separator s || starts_with paragraph_separator s
      then false
      else dot_star_end s'
  end.

(** [url.match] against the pattern of line 28 (from the start: "http" or
    "https", "://", one or more characters other than "/", optionally "/"
    and the characters up to the end): the three groups, the third being
    [undefined] when the URL stops after the host. *)
Definition url_match (url : string) : option (string * string * option string) :=
  let after_scheme :=
    match strip_prefix "https://" url with
    | Some rest => Some ("https", rest)
    | None =>
        match strip_prefix "http://" url with
        | Some rest => Some ("http", rest)
        | None => None
        end
    end in
  match after_scheme with
  | None => None
  | Some (scheme, rest) =>
      match span_host rest with
      | (EmptyString, _) => None
      | (host, EmptyString) => Some (scheme, host, None)
      | (host, path) =>
          if dot_star_end path then Some (scheme, host, Some path) else None
      end
  end.

(** [s.split(':')[0]]. *)
Fixpoint before_colon (s : string) : string :=
  match s with
  | EmptyString => EmptyString
  | String c s' =>
      if Ascii.eqb c ":" then EmptyString else String c (before_colon s')
  end.

(** What follows the first ":" of [s], when [s.includes(':')]. *)
Fixpoint after_colon (s : string) : option string :=
  match s with
  | EmptyString => None
  | String c s' => if Ascii.eqb c ":" then Some s' else after_colon s'
  end.

Record ParsedUrl := {
  protocol : string;
  hostname : string;
  port : value;
  pathname : string;
  search : string
}.

(** The manual URL parsing fallback of [makeHttpRequest] (lines 27-39), for
    hosts without a global [URL]; [None] is the rejection
    "Invalid URL format". *)
Definition manual_parse (url : string) : option ParsedUrl :=
  match url_match url with
  | None => None
  | Some (scheme, host, path) =>
      Some {| protocol := scheme +:+ ":";
              hostname := before_colon host;
              port := match after_colon host with
                      | Some p => VStr (before_colon p)   (* split(':')[1] *)
                      | None => VNum (if String.eqb scheme "https" then 443 else 80)
                      end;
              pathname := default "/" path;
              search := EmptyString |}
  end.



Definition request_path (parsedUrl : ParsedUrl) : string :=
  pathname parsedUrl +:+ search parsedUrl.

End DistUrl.

(** ** [src/script.mjs] *)

Module Script.
Section handlers.
Context `{Platform}.

(** [await fetch(url, requestOptions)] followed by [await response.text()]:
    one trace entry; a rejection of either is the exception. *)
Definition fetch (url : value) (requestOptions : RequestOptions)
    : M (Response * string) := fun t =>
  let answer := http t url requestOptions in
  (match answer with
   | Rejected e => Throw e
   | Resolved response body => Return (response, body)
   end, t ++ [EvHttp url requestOptions answer]).

(** [response.ok], which the Fetch standard defines as a 200-299 status. *)
Definition response_ok (response : Response) : bool :=
  (200 <=? statusCode response) && (statusCode response <=? 299).

(** [makeWebhookRequest(method, url, headers, body, acceptedStatusCodes)].
    [requestOptions.headers] is the very object [headers]: the Content-Type
    written into [headers] after [requestOptions] was built is sent.  The
    request sends the own properties of [headers]; the two reads of line 30
    also see what [headers] inherits. *)
Definition makeWebhookRequest (method url : value) (headers : HeaderObject)
    (body acceptedStatusCodes : value) : M (gmap string value) :=
  let body := match body with VUndefined => VNull | v => v end in
  let acceptedStatusCodes :=
    match acceptedStatusCodes with VUndefined => VArr [] | v => v end in
  let requestOptions :=
    {| ro_method := method; ro_headers := own_properties headers;
       ro_body := VUndefined |} in
  (* Add body for methods that support it *)
  supports_body ←
    (if truthy body then
       METHOD ← call_toUpperCase "method" method;
       mret (array_includes [VStr "POST"; VStr "PUT"; VStr "PATCH"; VStr "DELETE"]
               (VStr METHOD))
     else mret false);
  let requestOptions :=
    if supports_body : bool then
      with_headers (with_body requestOptions body)
        (* Set content type if not already specified *)
        (if negb (truthy (read_header headers "Content-Type"))
            && negb (truthy (read_header headers "content-type"))
         then <["Content-Type" := VStr "application/json"]> (own_properties headers)
         else own_properties headers)
    else requestOptions in
  try_catch
    ('(response, responseBody) ← fetch url requestOptions;
     (* Determine if request was successful *)
     isSuccess ←
       (if response_ok response then mret true
        else call_includes "acceptedStatusCodes" acceptedStatusCodes
               (VNum (statusCode response)));
     executedAt ← clock;
     mret ({[ "statusCode" := VNum (statusCode response);
              "body" := VStr responseBody;
              "success" := VBool isSuccess;
              "executedAt" := VStr executedAt ]} : gmap string value))
    (fun error =>
       (* console.error(`Request failed: ${error.message}`) reads the message *)
       _ ← caught_message error;
       throw error).

(** Lines 95-101: authentication from the secrets, first match only. *)
Definition apply_authentication (context : ExecutionContext)
    (headers : gmap string value) : gmap string value :=
  if truthy (get (secrets context) "AUTHORIZATION_HEADER") then
    <["Authorization" := get (secrets context) "AUTHORIZATION_HEADER"]> headers
  else if truthy (get (secrets context) "API_KEY") then
    <["X-API-Key" := get (secrets context) "API_KEY"]> headers
  else if truthy (get (secrets context) "BEARER_TOKEN") then
    <["Authorization" :=
        VStr ("Bearer " +:+ ToString (get (secrets context) "BEARER_TOKEN"))]> headers
  else headers.

(** [invoke(params, context)]. *)
Definition invoke (params : gmap string value) (context : ExecutionContext)
    : M (gmap string value) :=
  let method := get params "method" in
  let address := get params "address" in
  let requestBody := get params "requestBody" in
  let requestHeaders := get params "requestHeaders" in
  let acceptedStatusCodes :=
    match get params "acceptedStatusCodes" with
    | VUndefined => VArr []
    | v => v
    end in
  (* Validate required parameters *)
  if negb (truthy method) then throw (Error "HTTP method is required") else
  if negb (truthy address) then throw (Error "address parameter is required") else
  (* Prepare headers *)
  let headers : HeaderObject :=
    {| own_properties := {[ "User-Agent" := VStr "sgnl-generic-webhook/1.0.0" ]};
       prototype := None |} in
  (* Add custom headers if provided *)
  headers ←
    (if truthy requestHeaders then
       match requestHeaders with
       | VStr s =>
           match JSON_parse s with
           | inr customHeaders => mret (assign headers customHeaders)
           | inl m => throw (Error ("Invalid JSON in requestHeaders: " +:+ m))
           end
       | customHeaders => mret (assign headers customHeaders)
       end
     else mret headers);
  (* Apply authentication from context secrets *)
  let headers :=
    {| own_properties := apply_authentication context (own_properties headers);
       prototype := prototype headers |} in
  (* Prepare request body *)
  let body :=
    if truthy requestBody then
      match requestBody with
      | VStr s => VStr s
      | v => option_value (JSON_stringify v)
      end
    else VNull in
  (* Make the HTTP request *)
  result ← makeWebhookRequest method address headers body acceptedStatusCodes;
  mret result.

(** [error?.message?.includes(x)]. *)
Definition optional_message_includes (error : value) (x : string) : M value :=
  match error with
  | VUndefined | VNull => mret VUndefined
  | VObj o =>
      match default VUndefined (assoc "message" o) with
      | VUndefined | VNull => mret VUndefined
      | message =>
          b ← call_includes "error?.message?" message (VStr x);
          mret (VBool b)
      end
  | _ => mret VUndefined
  end.

(** [error(params, context)]: looks at the message, then re-throws. *)
Definition error (params : gmap string value) (context : ExecutionContext)
    : M (gmap string value) :=
  let error := get params "error" in
  fetch_ ← optional_message_includes error "fetch";
  network ←
    (if truthy fetch_ then mret fetch_
     else optional_message_includes error "network");
  isRetryable ←
    (if truthy network then mret network
     else optional_message_includes error "timeout");
  throw (JsThrown error).

(** [halt(params, context)]. *)
Definition halt (params : gmap string value) (context : ExecutionContext)
    : M (gmap string value) :=
  let reason := get params "reason" in
  halted_at ← clock;
  mret ({[ "status" := VStr "halted";
           "reason" := reason;
           "halted_at" := VStr halted_at ]} : gmap string value).

End handlers.
End Script.

(** ** A reference platform

    Concrete JSON built-ins, a scripted HTTP client and a fixed clock, to run
    the handlers on examples.  The parser reads the JSON grammar with integer
    numerals (a fraction or an exponent is outside [value]); escapes above
    U+007F are written back in UTF-8.  Its two error messages stand for the
    engine's SyntaxError texts, which differ from one engine to the next. *)

Module Ref.

Definition is_ws (c : ascii) : bool :=
  let n := nat_of_ascii c in
  (n =? 32)%nat || (n =? 9)%nat || (n =? 10)%nat || (n =? 13)%nat.

Fixpoint skip_ws (s : string) : string :=
  match s with
  | String c s' => if is_ws c then skip_ws s' else s
  | EmptyString => EmptyString
  end.

Definition digit_of (c : ascii) : option Z :=
  let n := nat_of_ascii c in
  if (48 <=? n)%nat && (n <=? 57)%nat then Some (Z.of_nat (n - 48)) else None.

Definition hex_of (c : ascii) : option nat :=
  let n := nat_of_ascii c in
  if (48 <=? n)%nat && (n <=? 57)%nat then Some (n - 48)%nat
  else if (97 <=? n)%nat && (n <=? 102)%nat then Some (n - 87)%nat
  else if (65 <=? n)%nat && (n <=? 70)%nat then Some (n - 55)%nat
  else None.

Fixpoint parse_digits (acc : Z) (s : string) : Z * string :=
  match s with
  | String c s' =>
      match digit_of c with
      | Some d => parse_digits (10 * acc + d) s'
      | None => (acc, s)
      end
  | EmptyString => (acc, s)
  end.

Definition continues_number (s : string) : bool :=
  match s with
  | String c _ => Ascii.eqb c "." || Ascii.eqb c "e" || Ascii.eqb c "E"
  | EmptyString => false
  end.

(** [int] of the JSON grammar: [0], or a non-zero digit and more digits. *)
Definition parse_int (s : string) : option (Z * string) :=
  match s with
  | String c s' =>
      match digit_of c with
      | Some 0 => if continues_number s' then None else Some (0, s')
      | Some d =>
          let '(n, rest) := parse_digits d s' in
          if continues_number rest then None else Some (n, rest)
      | None => None
      end
  | EmptyString => None
  end.

Definition parse_number (s : string) : option (value * string) :=
  match s with
  | String "-" s' =>
      match parse_int s' with
      | Some (n, rest) => Some (VNum (- n), rest)
      | None => None
      end
  | _ =>
      match parse_int s with
      | Some (n, rest) => Some (VNum n, rest)
      | None => None
      end
  end.

Definition byte (n : nat) : string := String (ascii_of_nat n) EmptyString.

(** UTF-8 of a code unit below U+10000. *)
Definition utf8 (cp : nat) : string :=
  if (cp <? 128)%nat then byte cp
  else if (cp <? 2048)%nat then
    byte (192 + cp / 64) +:+ byte (128 + cp mod 64)
  else
    byte (224 + cp / 4096) +:+ byte (128 + (cp / 64) mod 64)
      +:+ byte (128 + cp mod 64).

(** The characters after an opening quote, up to the closing one. *)
Fixpoint parse_string_body (s : string) : option (string * string) :=
  match s with
  | EmptyString => None
  | String "034" rest => Some (EmptyString, rest)
  | String "\" (String "u" (String a (String b (String c (String d rest))))) =>
      match hex_of a, hex_of b, hex_of c, hex_of d, parse_string_body rest with
      | Some x, Some y, Some z, Some w, Some (str, rest') =>
          Some (utf8 (((x * 16 + y) * 16 + z) * 16 + w)%nat +:+ str, rest')
      | _, _, _, _, _ => None
      end
  | String "\" (String e rest) =>
      let unescaped :=
        if Ascii.eqb e "034" then Some 34%nat
        else if Ascii.eqb e "\" then Some 92%nat
        else if Ascii.eqb e "/" then Some 47%nat
        else if Ascii.eqb e "b" then Some 8%nat
        else if Ascii.eqb e "f" then Some 12%nat
        else if Ascii.eqb e "n" then Some 10%nat
        else if Ascii.eqb e "r" then Some 13%nat
        else if Ascii.eqb e "t" then Some 9%nat
        else None in
      match unescaped, parse_string_body rest with
      | Some n, Some (str, rest') => Some (byte n +:+ str, rest')
      | _, _ => None
      end
  | String c rest =>
      if (nat_of_ascii c <? 32)%nat then None
      else
        match parse_string_body rest with
        | Some (str, rest') => Some (String c str, rest')
        | None => None
        end
  end.

(** [o[k] = v] on a property list: in place when [k] is there, else last. *)
Fixpoint set_prop (k : string) (v : value) (o : list (string * value))
    : list (string * value) :=
  match o with
  | [] => [(k, v)]
  | (k', v') :: rest =>
      if String.eqb k k' then (k, v) :: rest else (k', v') :: set_prop k v rest
  end.

Fixpoint drop_chars (n : nat) (s : string) : string :=
  match n, s with
  | S n', String _ s' => drop_chars n' s'
  | _, _ => s
  end.

Definition keyword (word : string) (v : value) (s : string) : option (value * string) :=
  if starts_with word s then Some (v, drop_chars (String.length word) s) else None.

Fixpoint parse_value (fuel : nat) (s : string) : option (value * string) :=
  match fuel with
  | O => None
  | S fuel =>
      match skip_ws s with
      | String "n" _ as s' => keyword "null" VNull s'
      | String "t" _ as s' => keyword "true" (VBool true) s'
      | String "f" _ as s' => keyword "false" (VBool false) s'
      | String "034" rest =>
          match parse_string_body rest with
          | Some (str, rest') => Some (VStr str, rest')
          | None => None
          end
      | String "[" rest =>
          match skip_ws rest with
          | String "]" rest' => Some (VArr [], rest')
          | rest' => parse_elements fuel rest' []
          end
      | String "{" rest =>
          match skip_ws rest with
          | String "}" rest' => Some (VObj [], rest')
          | rest' => parse_members fuel rest' []
          end
      | s' => parse_number s'
      end
  end
with parse_elements (fuel : nat) (s : string) (acc : list value)
    : option (value * string) :=
  match fuel with
  | O => None
  | S fuel =>
      match parse_value fuel s with
      | Some (v, rest) =>
          match skip_ws rest with
          | String "," rest' => parse_elements fuel rest' (acc ++ [v])
          | String "]" rest' => Some (VArr (acc ++ [v]), rest')
          | _ => None
          end
      | None => None
      end
  end
with parse_members (fuel : nat) (s : string) (acc : list (string * value))
    : option (value * string) :=
  match fuel with
  | O => None
  | S fuel =>
      match skip_ws s with
      | String "034" rest =>
          match parse_string_body rest with
          | Some (k, rest') =>
              match skip_ws rest' with
              | String ":" rest'' =>
                  match parse_value fuel rest'' with
                  | Some (v, rest3) =>
                      match skip_ws rest3 with
                      | String "," rest4 => parse_members fuel rest4 (set_prop k v acc)
                      | String "}" rest4 => Some (VObj (set_prop k v acc), rest4)
                      | _ => None
                      end
                  | None => None
                  end
              | _ => None
              end
          | None => None
          end
      | _ => None
      end
  end.

Definition parse (s : string) : string + value :=
  match parse_value (2 * String.length s + 2) s with
  | Some (v, rest) =>
      match skip_ws rest with
      | EmptyString => inr v
      | _ => inl "Unexpected non-whitespace character after JSON"
      end
  | None => inl "Unexpected token in JSON"
  end.

Definition hex_digit (n : nat) : string :=
  byte (if (n <? 10)%nat then 48 + n else 87 + n).

Definition escape (c : ascii) : string :=
  let n := nat_of_ascii c in
  if (n =? 34)%nat then "\" +:+ byte 34
  else if (n =? 92)%nat then "\\"
  else if (n =? 8)%nat then "\b"
  else if (n =? 12)%nat then "\f"
  else if (n =? 10)%nat then "\n"
  else if (n =? 13)%nat then "\r"
  else if (n =? 9)%nat then "\t"
  else if (n <? 32)%nat then "\u00" +:+ hex_digit (n / 16) +:+ hex_digit (n mod 16)
  else byte n.

Fixpoint escape_all (s : string) : string :=
  match s with
  | EmptyString => EmptyString
  | String c s' => escape c +:+ escape_all s'
  end.

Definition quote (s : string) : string := byte 34 +:+ escape_all s +:+ byte 34.

(** [JSON.stringify(v)] without indentation: [undefined] has no text of its
    own, reads [null] in an array and is left out of an object. *)
Fixpoint stringify (v : value) : option string :=
  match v with
  | VUndefined => None
  | VNull => Some "null"
  | VBool true => Some "true"
  | VBool false => Some "false"
  | VNum z => Some (string_of_Z z)
  | VStr s => Some (quote s)
  | VArr l =>
      Some ("[" +:+ join "," (map (fun e => default "null" (stringify e)) l) +:+ "]")
  | VObj o =>
      let fix members (o : list (string * value)) : list string :=
        match o with
        | [] => []
        | (k, e) :: rest =>
            match stringify e with
            | Some text => (quote k +:+ ":" +:+ text) :: members rest
            | None => members rest
            end
        end in
      Some ("{" +:+ join "," (members o) +:+ "}")
  end.

(** JSON text is written below with ['] for the double quote. *)
Fixpoint json (s : string) : string :=
  match s with
  | EmptyString => EmptyString
  | String c s' => String (if Ascii.eqb c "'" then "034"%char else c) (json s')
  end.

Definition upper_ascii (c : ascii) : ascii :=
  let n := nat_of_ascii c in
  if (Nat.leb 97 n && Nat.leb n 122)%bool then ascii_of_nat (n - 32) else c.

(** Upper-casing of ASCII text, the text HTTP verbs are written in; the
    examples apply it to nothing else. *)
Fixpoint upper (s : string) : string :=
  match s with
  | EmptyString => EmptyString
  | String c s' => String (upper_ascii c) (upper s')
  end.

Definition refused : http_answer :=
  Rejected (Error "connect ECONNREFUSED 127.0.0.1:443").

(** The platform whose HTTP client gives the scripted answers in turn (and
    refuses the connection once they are used up) and whose clock stands
    still. *)
Definition platform (answers : list http_answer) : Platform :=
  {| JSON_parse := parse;
     JSON_stringify := stringify;
     toUpperCase := upper;
     http := fun t _ _ => default refused (answers !! http_count t);
     now := fun _ => "2024-01-01T00:00:00.000Z" |}.

Definition responds (code : Z) (body : string) : http_answer :=
  Resolved {| statusCode := code; response_headers := VObj [] |} body.

Definition context (env secrets : gmap string value) (partial_results : value)
    : ExecutionContext :=
  {| env := env; secrets := secrets; outputs := VObj [];
     partial_results := partial_results |}.

End Ref.

(** The context of the repository's test suite. *)
Definition test_context : ExecutionContext :=
  Ref.context {[ "WEBHOOK_BASE_URL" := VStr "https://api.example.com" ]}
              {[ "API_KEY" := VStr "test-api-key-123456" ]}
              (VObj []).

(** ** [scripts/dev-runner.mjs] *)

Module DevRunner.
Section runner.
Context `{Platform}.

(** What [runDev] ends up printing. *)
Inductive report : Type :=
  | JobCompleted (result : gmap string value)
  | RecoverySuccessful (recovery : gmap string value)
  | RecoveryFailed (message : value).

(** The caught value as the [error] property handed to the handler: an
    [Error] object is the object with that message. *)
Definition caught_value (e : exn) : value :=
  match e with
  | JsError _ m => VObj [("message", VStr m)]
  | JsThrown v => v
  end.

(** [error.message] of a caught value, as [console.error] is given it. *)
Definition caught_message_value (e : exn) : M value :=
  match e with
  | JsError _ m => mret (VStr m)
  | JsThrown v => read_message v
  end.

Definition mockContext : ExecutionContext :=
  {| env := {[ "ENVIRONMENT" := VStr "development" ]};
     secrets := {[ "API_KEY" := VStr "dev-test-key-123456" ]};
     outputs := VObj [];
     partial_results := VObj [] |}.

(** [mockParams], its timestamp being the clock's when the module loads. *)
Definition mockParams (timestamp : string) : gmap string value :=
  {[ "method" := VStr "POST";
     "address" :=
       VStr "https://ominous-space-waffle-qjxpjprv7wh947r-8080.app.github.dev/";
     "requestBody" :=
       VStr (Ref.json "{'message': 'Hello from SGNL Generic Webhook!', 'timestamp': '"
             +:+ timestamp +:+ Ref.json "'}");
     "requestHeaders" :=
       VStr (Ref.json
               "{'Content-Type': 'application/json', 'X-Test-Header': 'development'}") ]}.

(** [runDev()], for the params and context it closes over: the job, and on
    failure the error handler of the script on the params plus the error. *)
Definition runDev_with (params : gmap string value) (context : ExecutionContext)
    : M report :=
  try_catch
    (result ← Script.invoke params context;
     mret (JobCompleted result))
    (fun error =>
       _ ← caught_message_value error;
       try_catch
         (recovery ← Script.error (<["error" := caught_value error]> params) context;
          mret (RecoverySuccessful recovery))
         (fun recoveryError =>
            message ← caught_message_value recoveryError;
            mret (RecoveryFailed message))).

Definition runDev (timestamp : string) : M report :=
  runDev_with (mockParams timestamp) mockContext.

End runner.
End DevRunner.

(** * Specification vocabulary *)

(** An [Error] object, as opposed to some other thrown value. *)
Definition is_error (e : exn) : Prop :=
  match e with JsError _ _ => True | JsThrown _ => False end.

Definition throws_errors {A} (o : outcome A) : Prop :=
  match o with Throw e => is_error e | Return _ => True end.

(** A computation that leaves the trace alone, does not look at it, and
    throws nothing but [Error] objects. *)
Definition silent {A} (m : M A) : Prop :=
  ∃ o, (∀ t, m t = (o, t)) ∧ throws_errors o.

(** The codes [acceptedStatusCodes] lists: none when the parameter is left
    out. *)
Definition accepted_codes (params : gmap string value) (codes : list value) : Prop :=
  (get params "acceptedStatusCodes" = VUndefined ∧ codes = []) ∨
  get params "acceptedStatusCodes" = VArr codes.

(** The spec's words for the two slash rules: [r] is [s] with exactly one
    trailing (leading) "/" removed if present. *)
Definition without_trailing_slash (s r : string) : Prop :=
  s = r +:+ "/" ∨ (r = s ∧ ∀ b, s ≠ b +:+ "/").

Definition without_leading_slash (s r : string) : Prop :=
  s = "/" +:+ r ∨ (r = s ∧ ∀ b, s ≠ "/" +:+ b).

(** Required parameters of the declared types: [method] and [address] are
    non-empty strings, [addressSuffix] is a string or falsy. *)
Record string_params (params : gmap string value) (m a : string) : Prop := {
  sp_method : get params "method" = VStr m;
  sp_method_ne : m ≠ EmptyString;
  sp_address : get params "address" = VStr a;
  sp_address_ne : a ≠ EmptyString;
  sp_suffix : truthy (get params "addressSuffix") = false ∨
              ∃ s, get params "addressSuffix" = VStr s
}.

(** The same context with no secret set. *)
Definition without_secrets (context : ExecutionContext) : ExecutionContext :=
  {| env := env context; secrets := ∅; outputs := outputs context;
     partial_results := partial_results context |}.

(** The URL [Dist.invoke] resolves for a string address. *)
Definition resolved_url (a : string) (addressSuffix : value) : value :=
  match addressSuffix with
  | VStr (String _ _ as s) =>
      VStr (replace_trailing_slash a +:+ "/" +:+ replace_leading_slash s)
  | _ => VStr a
  end.

(** The headers [Dist.invoke] starts from, once the body is in. *)
Definition body_headers (requestBody : value) : gmap string value :=
  if truthy requestBody then
    <["Content-Type" := VStr "application/json"]>
      {[ "User-Agent" := VStr "sgnl-generic-webhook/1.0.0" ]}
  else {[ "User-Agent" := VStr "sgnl-generic-webhook/1.0.0" ]}.

(** The options [Dist.invoke] sends for a string method, a body and the
    parsed custom headers. *)
Definition built_options `{Platform} (context : ExecutionContext) (m : string)
    (requestBody customHeaders : value) : RequestOptions :=
  {| ro_method := VStr (toUpperCase m);
     ro_headers :=
       Dist.apply_authentication context
         (Object_assign (body_headers requestBody) customHeaders);
     ro_body := if truthy requestBody then requestBody else VUndefined |}.

(** A JSON parameter that is left out (falsy), or given and parsed. *)
Inductive parsed_or_absent `{Platform} : value → value → Prop :=
  | Absent v : truthy v = false → parsed_or_absent v VUndefined
  | Parsed v parsed :
      truthy v = true → JSON_parse (ToString v) = inr parsed →
      parsed_or_absent v parsed.

(** What [Script.invoke] merges for a [requestHeaders] value: nothing when
    it is falsy, the value itself when it is not a string, the parsed value
    when it is a string of valid JSON. *)
Inductive script_headers `{Platform} : value → value → Prop :=
  | SH_absent v : truthy v = false → script_headers v VUndefined
  | SH_as_is v : truthy v = true → (∀ s, v ≠ VStr s) → script_headers v v
  | SH_parsed s parsed :
      s ≠ EmptyString → JSON_parse s = inr parsed →
      script_headers (VStr s) parsed.

(** The body [Script.invoke] passes on for a [requestBody] value. *)
Definition script_body `{Platform} (requestBody : value) : value :=
  if truthy requestBody then
    match requestBody with
    | VStr s => VStr s
    | v => option_value (JSON_stringify v)
    end
  else VNull.

(** The methods [makeWebhookRequest] attaches a body for. *)
Definition supports_body `{Platform} (m : string) : bool :=
  array_includes [VStr "POST"; VStr "PUT"; VStr "PATCH"; VStr "DELETE"]
    (VStr (toUpperCase m)).

(** The fields every result of [Dist.invoke] has. *)
Definition job_result (url : value) (METHOD : string) (response : Response)
    (body processed_at : string) : gmap string value :=
  {[ "status_code" := VNum (statusCode response);
     "body" := VStr body;
     "headers" := response_headers response;
     "url" := url;
     "method" := VStr METHOD;
     "processed_at" := VStr processed_at ]}.

(** The result for a response, given whether its status is listed. *)
Definition classified (listed : bool) (url : value) (METHOD : string)
    (response : Response) (body processed_at : string) : gmap string value :=
  if listed || ((200 <=? statusCode response) && (statusCode response <? 300)) then
    job_result url METHOD response body processed_at ∪ {[ "status" := VStr "success" ]}
  else
    job_result url METHOD response body processed_at ∪
      {[ "status" := VStr "http_error";
         "error" := VStr ("HTTP request failed with status "
                          +:+ string_of_Z (statusCode response)) ]}.

(** The [acceptedStatusCodes] in force: the empty list when left out. *)
Definition accepted_or_default (params : gmap string value) : value :=
  match get params "acceptedStatusCodes" with
  | VUndefined => VArr []
  | v => v
  end.

(** A value with no [includes] method. *)
Definition lacks_includes (v : value) : Prop :=
  match v with
  | VNull | VBool _ | VNum _ | VObj _ => True
  | VUndefined | VStr _ | VArr _ => False
  end.

(** An error value the handler can classify: an object whose [message] is
    a string (or an array, which also has [includes]). *)
Definition has_text_message (error : value) : Prop :=
  ∃ err message,
    error = VObj err ∧ assoc "message" err = Some message ∧
    ((∃ s, message = VStr s) ∨ (∃ l, message = VArr l)).

(** The result [makeWebhookRequest] builds for a response. *)
Definition script_result (response : Response) (body : string) (success : bool)
    (executedAt : string) : gmap string value :=
  {[ "statusCode" := VNum (statusCode response);
     "body" := VStr body;
     "success" := VBool success;
     "executedAt" := VStr executedAt ]}.

(** Whether [makeWebhookRequest] attaches the body: it is truthy and the
    method, upper-cased, is one of POST, PUT, PATCH, DELETE. *)
Definition script_attaches `{Platform} (method body : value) : bool :=
  truthy body && match method with VStr m => supports_body m | _ => false end.

(** The Content-Type rule of [makeWebhookRequest]: the headers sent with a
    body. *)
Definition with_default_content_type (headers : HeaderObject)
    : gmap string value :=
  if negb (truthy (read_header headers "Content-Type"))
     && negb (truthy (read_header headers "content-type"))
  then <["Content-Type" := VStr "application/json"]> (own_properties headers)
  else own_properties headers.

(** The options [makeWebhookRequest] hands to [fetch]. *)
Definition script_options `{Platform} (method : value) (headers : HeaderObject)
    (body : value) : RequestOptions :=
  if script_attaches method body then
    {| ro_method := method;
       ro_headers := with_default_content_type headers;
       ro_body := body |}
  else {| ro_method := method; ro_headers := own_properties headers;
          ro_body := VUndefined |}.

(** The header object [Script.invoke] hands to [makeWebhookRequest], from
    the one it had before the authentication. *)
Definition authenticated (context : ExecutionContext) (headers : HeaderObject)
    : HeaderObject :=
  {| own_properties := Script.apply_authentication context (own_properties headers);
     prototype := prototype headers |}.

(** The header object of [Script.invoke] for the custom headers it merges. *)
Definition script_header_object (context : ExecutionContext) (customHeaders : value)
    : HeaderObject :=
  authenticated context
    (assign {| own_properties :=
                 {[ "User-Agent" := VStr "sgnl-generic-webhook/1.0.0" ]};
               prototype := None |}
       customHeaders).

(** A computation that leaves the trace alone (it may read the clock). *)
Definition quiet {A} (m : M A) : Prop := ∀ t, (m t).2 = t.

(** [c] occurs in [s]. *)
Fixpoint has_char (c : ascii) (s : string) : bool :=
  match s with
  | EmptyString => false
  | String c' s' => Ascii.eqb c' c || has_char c s'
  end.

(** The default port of a scheme. *)
Definition default_port (https : bool) : Z := if https then 443 else 80.

Definition scheme_of (https : bool) : string := if https then "https" else "http".

(** * Properties *)

(** ** Strings and values *)

Lemma starts_with_app (p s : string) :
  starts_with p s = true ↔ ∃ b, s = p +:+ b.
Proof.
  revert s. induction p as [|a p IH]; intros s; simpl.
  - split; [eauto | done].
  - destruct s as [|c s].
    + split; [done | intros [b Hb]; discriminate].
    + rewrite andb_true_iff, IH. split.
      * intros [Hac [b ->]]. apply Ascii.eqb_eq in Hac as ->. eauto.
      * intros [b Hb]. injection Hb as -> ->.
        split; [apply Ascii.eqb_refl | eauto].
Qed.

(** [str_includes] is substring search: some text before, the pattern,
    some text after. *)
Lemma str_includes_spec (p s : string) :
  str_includes p s = true ↔ ∃ a b, s = a +:+ p +:+ b.
Proof.
  induction s as [|c s IH]; simpl; rewrite orb_true_iff, starts_with_app.
  - split.
    + intros [[b Hb] | ?]; [exists EmptyString, b; done | done].
    + intros ([|? a] & b & Hab); [left; eauto | discriminate].
  - rewrite IH. split.
    + intros [[b Hb] | (a & b & ->)].
      * exists EmptyString, b. done.
      * exists (String c a), b. done.
    + intros ([|c' a] & b & Hab).
      * left. eauto.
      * right. injection Hab as -> ->. eauto.
Qed.

Lemma sameValueZero_num (c : Z) (v : value) :
  sameValueZero (VNum c) v = true ↔ v = VNum c.
Proof.
  destruct v; simpl; try (split; [done | discriminate]).
  rewrite Z.eqb_eq. split; [by intros -> | by intros [= ->]].
Qed.

(** [l.includes(c)] for a number [c] is membership of that number. *)
Lemma array_includes_num (l : list value) (c : Z) :
  array_includes l (VNum c) = true ↔ VNum c ∈ l.
Proof.
  unfold array_includes. rewrite existsb_exists. split.
  - intros (v & Hv & Heq). apply sameValueZero_num in Heq as ->.
    by apply list_elem_of_In.
  - intros Hin. exists (VNum c). split; [by apply list_elem_of_In|].
    by apply sameValueZero_num.
Qed.

Lemma truthy_str (s : string) : truthy (VStr s) = true ↔ s ≠ EmptyString.
Proof.
  simpl. rewrite negb_true_iff. split.
  - intros Hs ->. discriminate.
  - intros Hs. destruct s; [done | reflexivity].
Qed.

Lemma replace_trailing_slash_app (r : string) :
  replace_trailing_slash (r +:+ "/") = r.
Proof.
  induction r as [|c r IH]; [done|]. simpl. rewrite IH.
  destruct (r +:+ "/") eqn:Hr; [by destruct r | done].
Qed.

Lemma replace_trailing_slash_id (s : string) :
  (∀ b, s ≠ b +:+ "/") → replace_trailing_slash s = s.
Proof.
  induction s as [|c s IH]; intros Hs; [done|]. simpl. destruct s as [|c' s].
  - destruct (Ascii.eqb_spec c "/") as [->|]; [|done].
    by destruct (Hs EmptyString).
  - rewrite IH; [done|]. intros b Hb. apply (Hs (String c b)). simpl. by rewrite Hb.
Qed.

Lemma replace_trailing_slash_cons (c : ascii) (s : string) :
  s ≠ EmptyString →
  replace_trailing_slash (String c s) = String c (replace_trailing_slash s).
Proof. by destruct s. Qed.

(** The source's trailing-slash replacement is the spec's rule. *)
Lemma replace_trailing_slash_spec (s r : string) :
  without_trailing_slash s r ↔ r = replace_trailing_slash s.
Proof.
  split.
  - intros [-> | [-> Hs]].
    + by rewrite replace_trailing_slash_app.
    + by rewrite replace_trailing_slash_id.
  - intros ->. induction s as [|c s IH]; [right; split; [done|by intros []]|].
    destruct (decide (s = EmptyString)) as [->|Hs].
    + simpl. destruct (Ascii.eqb_spec c "/") as [->|Hc]; [by left|].
      right. split; [done|]. intros [|? [|]] [=]; done.
    + rewrite replace_trailing_slash_cons by done.
      destruct IH as [IH | [IH Hno]].
      * left. change (String c s = String c (replace_trailing_slash s +:+ "/")).
        by f_equal.
      * right. rewrite IH. split; [done|].
        intros [|c0 b]; simpl; [intros [=]; done|].
        intros [= -> Hb]. by apply (Hno b).
Qed.

Lemma replace_leading_slash_spec (s r : string) :
  without_leading_slash s r ↔ r = replace_leading_slash s.
Proof.
  split.
  - intros [-> | [-> Hs]]; [done|].
    destruct s as [|c s]; [done|]. simpl.
    destruct (Ascii.eqb_spec c "/") as [->|]; [|done]. by destruct (Hs s).
  - intros ->. destruct s as [|c s]; [right; split; [done|by intros b]|].
    simpl. destruct (Ascii.eqb_spec c "/") as [->|Hc]; [by left|].
    right. split; [done|]. intros b [=]. done.
Qed.

(** [Object.assign] lets the source's properties win and keeps the rest. *)
Lemma Object_assign_lookup (target : gmap string value) (source : value) (k : string) :
  Object_assign target source !! k =
  match Object_assign ∅ source !! k with
  | Some v => Some v
  | None => target !! k
  end.
Proof.
  unfold Object_assign. generalize (own_props source). intros l.
  induction l as [|[k' v'] l IH] using rev_ind; [simpl; by rewrite lookup_empty|].
  rewrite !foldl_app. simpl.
  destruct (String.eqb k' "__proto__"); [exact IH|].
  destruct (decide (k' = k)) as [->|Hne].
  - by rewrite !lookup_insert_eq.
  - by rewrite !lookup_insert_ne.
Qed.

(** [Object.assign] makes no own property of the name [__proto__]. *)
Lemma Object_assign_proto (target : gmap string value) (source : value) :
  Object_assign target source !! "__proto__" = target !! "__proto__".
Proof.
  unfold Object_assign. generalize (own_props source). intros l.
  induction l as [|[k' v'] l IH] using rev_ind; [done|].
  rewrite foldl_app. simpl.
  destruct (String.eqb_spec k' "__proto__") as [->|Hne]; [exact IH|].
  by rewrite lookup_insert_ne.
Qed.

Lemma apply_authentication_lookup context (headers : gmap string value) (k : string) :
  k ≠ "Authorization" → k ≠ "X-API-Key" →
  Dist.apply_authentication context headers !! k = headers !! k.
Proof.
  intros H1 H2. unfold Dist.apply_authentication.
  repeat case_match; by rewrite ?lookup_insert_ne.
Qed.

Lemma apply_authentication_without_secrets context headers :
  Dist.apply_authentication (without_secrets context) headers = headers.
Proof. reflexivity. Qed.

(** ** Computations without effects *)

Lemma bind_run {A B} (m : M A) (f : A → M B) (t : list event) :
  (m ≫= f) t =
  match m t with
  | (Return a, t') => f a t'
  | (Throw e, t') => (Throw e, t')
  end.
Proof. reflexivity. Qed.

Lemma bind_ret {A B} (a : A) (f : A → M B) : mret a ≫= f = f a.
Proof. reflexivity. Qed.

Lemma bind_clock `{Platform} {B} (f : string → M B) (t : list event) :
  (clock ≫= f) t = f (now t) t.
Proof. reflexivity. Qed.

Lemma bind_sleep {B} (ms : Z) (f : unit → M B) (t : list event) :
  (sleep ms ≫= f) t = f tt (t ++ [EvSleep ms]).
Proof. reflexivity. Qed.

Lemma silent_ret {A} (a : A) : silent (mret a).
Proof. by exists (Return a). Qed.

Lemma silent_throw {A} name message : silent (throw (JsError name message) : M A).
Proof. by exists (Throw (JsError name message)). Qed.

Lemma silent_throw_Error {A} message : silent (throw (Error message) : M A).
Proof. apply silent_throw. Qed.

Lemma silent_throw_TypeError {A} message : silent (throw (TypeError message) : M A).
Proof. apply silent_throw. Qed.

Lemma silent_bind {A B} (m : M A) (f : A → M B) :
  silent m → (∀ a, silent (f a)) → silent (m ≫= f).
Proof.
  intros ([a|e] & Hm & He) Hf.
  - destruct (Hf a) as (o & Ho & Ho'). exists o. split; [|done].
    intros t. by rewrite bind_run, Hm, Ho.
  - exists (Throw e). split; [|done]. intros t. by rewrite bind_run, Hm.
Qed.

Create HintDb silent.
#[export] Hint Resolve silent_ret silent_throw silent_throw_Error
  silent_throw_TypeError : silent.

Lemma silent_call_replace what f v : silent (call_replace what f v).
Proof. destruct v; simpl; eauto with silent. Qed.

Lemma silent_call_toUpperCase `{Platform} what v : silent (call_toUpperCase what v).
Proof. destruct v; simpl; eauto with silent. Qed.

Lemma silent_call_includes what v x : silent (call_includes what v x).
Proof. destruct v; simpl; eauto with silent. Qed.

Lemma silent_read_message v : silent (read_message v).
Proof. destruct v; simpl; eauto with silent. Qed.

Lemma silent_caught_message e : silent (caught_message e).
Proof. destruct e as [? ?|[]]; simpl; eauto with silent. Qed.

#[export] Hint Resolve silent_call_replace silent_call_toUpperCase
  silent_call_includes silent_read_message silent_caught_message : silent.

Ltac silent_tac :=
  repeat first
    [ progress eauto with silent
    | apply silent_bind; [|intros]
    | match goal with
      | |- silent (if ?b then _ else _) => destruct b
      | |- silent (match ?x with _ => _ end) => destruct x
      end ].

(** Run a silent computation: name its outcome and rewrite with it. *)
Ltac run_silent lem o Ho :=
  let He := fresh "He" in
  destruct lem as (o & Ho & He); rewrite ?Ho in *.

Section dist_facts.
Context `{Platform}.

Lemma build_request_silent params context :
  silent (Dist.build_request params context).
Proof. unfold Dist.build_request. silent_tac. Qed.

(** What [invoke] does once the request is built: one HTTP call, nothing
    thrown but [Error] objects, and a result that names the URL. *)
Lemma invoke_built params context t url METHOD options :
  Dist.build_request params context t = (Return (url, METHOD, options), t) →
  ∃ o, Dist.invoke params context t =
         (o, t ++ [EvHttp url options (http t url options)]) ∧
       throws_errors o ∧
       ∀ r, o = Return r →
            r !! "url" = Some url ∧ r !! "method" = Some (VStr METHOD).
Proof.
  intros Hb. unfold Dist.invoke. rewrite bind_run, Hb. simpl.
  rewrite bind_run. unfold try_catch, Dist.makeHttpRequest.
  destruct (http t url options) as [e|response body].
  - rewrite bind_run.
    destruct (silent_caught_message e) as ([m|e'] & -> & He);
      eexists; (split; [reflexivity|]); (split; [|done]);
      [exact I | exact He].
  - rewrite bind_run. unfold clock. rewrite bind_run.
    destruct (silent_call_includes "acceptedStatusCodes"
                match get params "acceptedStatusCodes" with
                | VUndefined => VArr []
                | v => v
                end (VNum (statusCode response))) as ([b|e'] & -> & He);
      [|eexists; split; [reflexivity|]; split; [exact He|done]].
    destruct (b || _); eexists; (split; [reflexivity|]);
      (split; [exact I|]); intros r [= <-]; by simplify_map_eq.
Qed.

(** The secrets only enter in the last step: the request built under other
    secrets differs in the authentication applied to the same headers. *)
Lemma build_request_secrets params context context' t url METHOD options :
  Dist.build_request params context t = (Return (url, METHOD, options), t) →
  ∃ headers,
    ro_headers options = Dist.apply_authentication context headers ∧
    Dist.build_request params context' t =
      (Return (url, METHOD,
               with_headers options (Dist.apply_authentication context' headers)), t).
Proof.
  unfold Dist.build_request.
  destruct (negb (truthy (get params "method"))); [discriminate|].
  destruct (negb (truthy (get params "address"))); [discriminate|].
  repeat
    match goal with
    | |- context [(?m ≫= _) t] =>
        let Hs := fresh "Hs" in
        assert (Hs : silent m) by silent_tac;
        destruct Hs as ([?|?] & Hs & _);
        rewrite !(bind_run m _ t), !Hs; [|discriminate]
    end.
  unfold mret, M_ret. intros [= <- <- <-]. eexists. split; reflexivity.
Qed.

(** [invoke] either fails validation before any I/O, or builds a request
    and issues exactly that one. *)
Lemma invoke_cases params context t :
  (∃ e, is_error e ∧ Dist.invoke params context t = (Throw e, t)) ∨
  (∃ url METHOD options o,
     Dist.build_request params context t = (Return (url, METHOD, options), t) ∧
     Dist.invoke params context t =
       (o, t ++ [EvHttp url options (http t url options)]) ∧
     throws_errors o).
Proof.
  destruct (build_request_silent params context) as ([[[url METHOD] options]|e] & Hb & He).
  - right. destruct (invoke_built params context t url METHOD options)
      as (o & Ho & Ho' & _); [apply Hb|]. by exists url, METHOD, options, o.
  - left. exists e. split; [done|].
    unfold Dist.invoke. by rewrite bind_run, Hb.
Qed.

(** C1.  When the HTTP request of an [invoke] completes with status [code],
    [invoke] returns a job result (it does not throw); its status is
    "success" exactly when 200 <= code < 300 or [code] is listed in
    [acceptedStatusCodes] (nothing is listed by default); otherwise its
    status is "http_error" and its [error] field is the text
    "HTTP request failed with status " followed by the decimal code. *)
Theorem invoke_classifies_status params context t0 o url options response body codes :
  Dist.invoke params context t0 =
    (o, t0 ++ [EvHttp url options (Resolved response body)]) →
  accepted_codes params codes →
  ∃ r, o = Return r ∧
    r !! "status_code" = Some (VNum (statusCode response)) ∧
    (r !! "status" = Some (VStr "success") ↔
       (200 ≤ statusCode response < 300 ∨ VNum (statusCode response) ∈ codes)) ∧
    (¬ (200 ≤ statusCode response < 300 ∨ VNum (statusCode response) ∈ codes) →
       r !! "status" = Some (VStr "http_error") ∧
       r !! "error" =
         Some (VStr ("HTTP request failed with status "
                     +:+ string_of_Z (statusCode response)))).
Proof.
  intros Hrun Hcodes.
  assert (∃ l, match get params "acceptedStatusCodes" with
               | VUndefined => VArr []
               | v => v
               end = VArr l ∧ l = codes) as (l & Hl & ->).
  { destruct Hcodes as [[-> ->] | ->]; eauto. }
  unfold Dist.invoke in Hrun. rewrite Hl in Hrun. rewrite bind_run in Hrun.
  destruct (build_request_silent params context) as (ob & Hb & _).
  rewrite Hb in Hrun.
  destruct ob as [[[url' METHOD] options']|e]; simpl in Hrun.
  2: { injection Hrun as _ Ht. apply (f_equal length) in Ht.
       rewrite length_app in Ht. simpl in Ht. lia. }
  rewrite bind_run in Hrun. unfold try_catch, Dist.makeHttpRequest in Hrun.
  destruct (http t0 url' options') as [e|response' body'] eqn:Hanswer.
  { rewrite bind_run in Hrun.
    destruct (silent_caught_message e) as ([m|e'] & Hm & _); rewrite Hm in Hrun;
      injection Hrun as _ Ht; apply app_inj_tail in Ht as [_ Ht]; discriminate. }
  rewrite bind_run in Hrun. unfold clock in Hrun. rewrite bind_run in Hrun.
  simpl in Hrun.
  set (c := statusCode response') in *.
  assert (Hstd : (200 <=? c) && (c <? 300) = true ↔ 200 ≤ c < 300) by
    (rewrite andb_true_iff, Z.leb_le, Z.ltb_lt; done).
  pose proof (array_includes_num codes c) as Hacc.
  destruct (array_includes codes (VNum c) || ((200 <=? c) && (c <? 300))) eqn:Hs;
    injection Hrun as <- Ht; apply app_inj_tail in Ht as [_ [= <- <- <- <-]];
    fold c; eexists; (split; [reflexivity|]).
  - apply orb_true_iff in Hs.
    split; [by simplify_map_eq|]. split.
    + split; [intros _; tauto | intros _; by simplify_map_eq].
    + intros Hno. exfalso. tauto.
  - apply orb_false_iff in Hs as [Hs1 Hs2].
    assert (Hno : ¬ (200 ≤ c < 300 ∨ VNum c ∈ codes)).
    { intros [?|?]; [rewrite <- Hstd in *|rewrite <- Hacc in *]; congruence. }
    split; [by simplify_map_eq|]. split.
    + split; [intros Hsucc; by simplify_map_eq | tauto].
    + intros _. by simplify_map_eq.
Qed.

(** C2.  When [params.error.message] is a string that contains neither
    "rate limit" nor "429": if it contains "timeout" or "ETIMEDOUT", [error]
    returns a result with status "timeout_error" and recovery_method
    "timeout_handling"; else if it contains "ENOTFOUND" or "DNS", it returns
    status "dns_error" with recovery_method "dns_failure_handling"; else it
    throws an Error whose message is "Unrecoverable webhook error: " followed
    by the message.  The tests are the case-sensitive substring search
    [str_includes], tried in this order. *)
Theorem error_dispatch params context err msg t :
  get params "error" = VObj err →
  assoc "message" err = Some (VStr msg) →
  str_includes "rate limit" msg = false →
  str_includes "429" msg = false →
  if str_includes "timeout" msg || str_includes "ETIMEDOUT" msg then
    ∃ r, Dist.error params context t = (Return r, t) ∧
         r !! "status" = Some (VStr "timeout_error") ∧
         r !! "recovery_method" = Some (VStr "timeout_handling")
  else if str_includes "ENOTFOUND" msg || str_includes "DNS" msg then
    ∃ r, Dist.error params context t = (Return r, t) ∧
         r !! "status" = Some (VStr "dns_error") ∧
         r !! "recovery_method" = Some (VStr "dns_failure_handling")
  else
    Dist.error params context t =
      (Throw (Error ("Unrecoverable webhook error: " +:+ msg)), t).
Proof.
  intros Herr Hmsg Hrate H429.
  unfold Dist.error, Dist.error_with. rewrite Herr. simpl read_message. rewrite Hmsg. simpl default.
  rewrite bind_ret. simpl call_includes. rewrite Hrate, H429, !bind_ret.
  destruct (str_includes "timeout" msg); [|destruct (str_includes "ETIMEDOUT" msg)];
    simpl orb; rewrite ?bind_ret, ?bind_clock.
  1,2: eexists; split; [reflexivity|]; by simplify_map_eq.
  destruct (str_includes "ENOTFOUND" msg); [|destruct (str_includes "DNS" msg)];
    simpl orb; rewrite ?bind_ret, ?bind_clock.
  1,2: eexists; split; [reflexivity|]; by simplify_map_eq.
  reflexivity.
Qed.

(** C3.  When [params.error.message] contains "rate limit" or "429", [error]
    sleeps 5000 ms, removes exactly the [error] field from a copy of the
    params, calls [invoke] once on the remaining params with the same
    context, and returns what it returns; when that call throws, [error]
    throws an Error whose message is "Retry failed after rate limit
    backoff: " followed by the inner message.  That the retry is given the
    params without [error], and nothing else, holds whatever handler stands
    for [webhookJob.invoke] (the shipped [invoke] does not read the field).
    The whole call adds one sleep and at most one HTTP request to the
    trace. *)
Theorem error_retries_once params context err msg t :
  get params "error" = VObj err →
  assoc "message" err = Some (VStr msg) →
  str_includes "rate limit" msg || str_includes "429" msg = true →
  let originalParams := delete "error" params in
  originalParams !! "error" = None ∧
  (∀ k, k ≠ "error" → originalParams !! k = params !! k) ∧
  (∀ retry o t1,
     retry originalParams context (t ++ [EvSleep 5000]) = (o, t1) →
     match o with
     | Return r => Dist.error_with retry params context t = (Return r, t1)
     | Throw e =>
         Dist.error_with retry params context t =
           (m ← caught_message e;
            throw (Error ("Retry failed after rate limit backoff: " +:+ m))) t1
     end) ∧
  ∃ o t1,
    Dist.invoke originalParams context (t ++ [EvSleep 5000]) = (o, t1) ∧
    (t1 = t ++ [EvSleep 5000] ∨
     ∃ url options answer, t1 = t ++ [EvSleep 5000; EvHttp url options answer]) ∧
    match o with
    | Return r => Dist.error params context t = (Return r, t1)
    | Throw e =>
        ∃ name inner, e = JsError name inner ∧
          Dist.error params context t =
            (Throw (Error ("Retry failed after rate limit backoff: " +:+ inner)), t1)
    end.
Proof.
  intros Herr Hmsg Hrate originalParams.
  assert (Herror : ∀ retry, Dist.error_with retry params context t =
            try_catch (retry originalParams context)
              (λ retryError,
                 m ← caught_message retryError;
                 throw (Error ("Retry failed after rate limit backoff: " +:+ m)))
              (t ++ [EvSleep 5000])).
  { intros retry. unfold Dist.error_with. rewrite Herr. simpl read_message.
    rewrite Hmsg. simpl default.
    rewrite bind_ret. simpl call_includes. rewrite bind_ret.
    destruct (str_includes "rate limit" msg); simpl in Hrate; rewrite ?Hrate;
      rewrite !bind_ret; apply bind_sleep. }
  split; [apply lookup_delete_eq|].
  split; [intros k Hk; by apply lookup_delete_ne|].
  split.
  { intros retry o t1 Hretry. rewrite Herror. unfold try_catch. rewrite Hretry.
    by destruct o. }
  unfold Dist.error. rewrite Herror. unfold try_catch.
  destruct (invoke_cases originalParams context (t ++ [EvSleep 5000]))
    as [(e & He & ->) | (url & METHOD & options & o & _ & -> & Ho)].
  - destruct e as [name inner|]; [|done].
    eexists _, _. split; [reflexivity|]. split; [by left|].
    by exists name, inner.
  - eexists _, _. split; [reflexivity|]. split.
    { right. eexists _, _, _. by rewrite <- app_assoc. }
    destruct o as [r|[name inner|]]; [done| |done].
    by exists name, inner.
Qed.

(** [build_request] on well-typed required parameters: the body is
    validated first, then the headers, then the request is complete. *)
Lemma build_request_string_params params context m a t :
  string_params params m a →
  let requestBody := get params "requestBody" in
  let requestHeaders := get params "requestHeaders" in
  (∃ msg, truthy requestBody = true ∧ JSON_parse (ToString requestBody) = inl msg ∧
     Dist.build_request params context t =
       (Throw (Error ("Invalid JSON in requestBody: " +:+ msg)), t)) ∨
  (∃ parsed msg, parsed_or_absent requestBody parsed ∧
     truthy requestHeaders = true ∧
     JSON_parse (ToString requestHeaders) = inl msg ∧
     Dist.build_request params context t =
       (Throw (Error ("Invalid JSON in requestHeaders: " +:+ msg)), t)) ∨
  (∃ parsed customHeaders,
     parsed_or_absent requestBody parsed ∧
     parsed_or_absent requestHeaders customHeaders ∧
     Dist.build_request params context t =
       (Return (resolved_url a (get params "addressSuffix"), toUpperCase m,
                built_options context m requestBody customHeaders), t)).
Proof.
  intros [Hm Hmne Ha Hane Hs]. intros requestBody requestHeaders.
  apply truthy_str in Hmne, Hane.
  assert (Hurl : (if truthy (get params "addressSuffix")
                  then
                    baseUrl ← call_replace "targetUrl" replace_trailing_slash (VStr a);
                    suffix ← call_replace "addressSuffix" replace_leading_slash
                               (get params "addressSuffix");
                    mret (VStr (baseUrl +:+ "/" +:+ suffix))
                  else mret (VStr a))
                 = mret (resolved_url a (get params "addressSuffix"))).
  { destruct Hs as [Hf | [s ->]].
    - rewrite Hf. by destruct (get params "addressSuffix") as [| | | |[|]| |].
    - by destruct s. }
  unfold Dist.build_request. rewrite Hm, Ha, Hmne, Hane. simpl negb. cbv iota.
  rewrite Hurl, bind_ret. unfold call_toUpperCase. rewrite bind_ret.
  fold requestBody requestHeaders.
  unfold built_options, body_headers.
  destruct (truthy requestBody) eqn:Hb.
  - destruct (JSON_parse (ToString requestBody)) as [msg|parsed] eqn:Hpb.
    { left. by exists msg. }
    right. rewrite bind_ret.
    destruct (truthy requestHeaders) eqn:Hh.
    + destruct (JSON_parse (ToString requestHeaders)) as [msg|custom] eqn:Hph.
      { left. exists parsed, msg. split; [by constructor|done]. }
      right. exists parsed, custom. split; [by constructor|]. split; [by constructor|].
      reflexivity.
    + right. exists parsed, VUndefined. split; [by constructor|]. split; [by constructor|].
      reflexivity.
  - right. rewrite bind_ret.
    destruct (truthy requestHeaders) eqn:Hh.
    + destruct (JSON_parse (ToString requestHeaders)) as [msg|custom] eqn:Hph.
      { left. exists VUndefined, msg. split; [by constructor|done]. }
      right. exists VUndefined, custom. split; [by constructor|]. split; [by constructor|].
      reflexivity.
    + right. exists VUndefined, VUndefined. split; [by constructor|]. split; [by constructor|].
      reflexivity.
Qed.

Lemma invoke_throws_early params context t e :
  Dist.build_request params context t = (Throw e, t) →
  Dist.invoke params context t = (Throw e, t).
Proof. intros Hb. unfold Dist.invoke. by rewrite bind_run, Hb. Qed.

Lemma parsed_or_absent_inv (v parsed : value) (msg : string) :
  parsed_or_absent v parsed → truthy v = true →
  JSON_parse (ToString v) = inl msg → False.
Proof. intros [v' Hf | v' p Ht Hp] Hv Hm; congruence. Qed.

(** C9.  With a non-empty [addressSuffix] (method, address and suffix being
    non-empty strings), the URL [invoke] resolves is the address with exactly
    one trailing "/" removed if present, then "/", then the suffix with
    exactly one leading "/" removed if present, and nothing else: unless the
    body or the headers are rejected as invalid JSON, the one request goes
    to that URL and a returned result carries it in [url]. *)
Theorem invoke_joins_suffix params context m a s t :
  get params "method" = VStr m → m ≠ EmptyString →
  get params "address" = VStr a → a ≠ EmptyString →
  get params "addressSuffix" = VStr s → s ≠ EmptyString →
  ∃ base suffix,
    without_trailing_slash a base ∧
    without_leading_slash s suffix ∧
    let url := VStr (base +:+ "/" +:+ suffix) in
    ((∃ msg, Dist.invoke params context t =
               (Throw (Error ("Invalid JSON in requestBody: " +:+ msg)), t)) ∨
     (∃ msg, Dist.invoke params context t =
               (Throw (Error ("Invalid JSON in requestHeaders: " +:+ msg)), t)) ∨
     (∃ o options,
        Dist.invoke params context t =
          (o, t ++ [EvHttp url options (http t url options)]) ∧
        ∀ r, o = Return r → r !! "url" = Some url)).
Proof.
  intros Hm Hmne Ha Hane Hs Hsne.
  exists (replace_trailing_slash a), (replace_leading_slash s).
  split; [by apply replace_trailing_slash_spec|].
  split; [by apply replace_leading_slash_spec|].
  assert (Hsp : string_params params m a) by (split; eauto).
  assert (Hurl : resolved_url a (get params "addressSuffix") =
                 VStr (replace_trailing_slash a +:+ "/" +:+ replace_leading_slash s)).
  { rewrite Hs. by destruct s. }
  destruct (build_request_string_params params context m a t Hsp)
    as [(msg & _ & _ & Hb) | [(parsed & msg & _ & _ & _ & Hb) |
        (parsed & custom & _ & _ & Hb)]]; simpl.
  - left. exists msg. by apply invoke_throws_early.
  - right. left. exists msg. by apply invoke_throws_early.
  - right. right. rewrite Hurl in Hb.
    destruct (invoke_built _ _ _ _ _ _ Hb) as (o & Ho & _ & Hr).
    eexists o, _. split; [exact Ho|]. intros r Hor. by apply Hr.
Qed.


(** C5 (amended).  With method and address non-empty strings and the
    suffix a string or absent: a non-empty string [requestBody] that the
    JSON parser rejects makes [invoke] throw
    "Invalid JSON in requestBody: <parser message>", and a non-empty string
    [requestHeaders] that the parser rejects, the body being absent or
    valid, makes it throw "Invalid JSON in requestHeaders: <parser message>";
    in both cases the trace is unchanged, no request is issued. *)
Theorem invalid_json_rejected params context m a t :
  string_params params m a →
  (∀ b msg,
     get params "requestBody" = VStr b → b ≠ EmptyString →
     JSON_parse b = inl msg →
     Dist.invoke params context t =
       (Throw (Error ("Invalid JSON in requestBody: " +:+ msg)), t)) ∧
  (∀ h msg parsed,
     get params "requestHeaders" = VStr h → h ≠ EmptyString →
     JSON_parse h = inl msg →
     parsed_or_absent (get params "requestBody") parsed →
     Dist.invoke params context t =
       (Throw (Error ("Invalid JSON in requestHeaders: " +:+ msg)), t)).
Proof.
  intros Hsp.
  destruct (build_request_string_params params context m a t Hsp)
    as [(msg' & Hbt & Hbp & Hb) | [(parsed' & msg' & Hpb & Hht & Hhp & Hb) |
        (parsed' & custom & Hpb & Hph & Hb)]]; simpl in *; split.
  - intros b msg Hrb Hbne Hp. rewrite Hrb in *. simpl in Hbp.
    apply invoke_throws_early. congruence.
  - intros h msg parsed Hrh Hhne Hp Hpa. exfalso.
    by eapply parsed_or_absent_inv.
  - intros b msg Hrb Hbne Hp. exfalso. rewrite Hrb in *.
    apply (parsed_or_absent_inv _ _ msg Hpb); [by apply truthy_str | done].
  - intros h msg parsed Hrh Hhne Hp Hpa. rewrite Hrh in *. simpl in Hhp.
    apply invoke_throws_early. congruence.
  - intros b msg Hrb Hbne Hp. exfalso. rewrite Hrb in *.
    apply (parsed_or_absent_inv _ _ msg Hpb); [by apply truthy_str | done].
  - intros h msg parsed Hrh Hhne Hp Hpa. exfalso. rewrite Hrh in *.
    apply (parsed_or_absent_inv _ _ msg Hph); [by apply truthy_str | done].
Qed.

(** C7 (amended).  With method and address non-empty strings, a non-empty
    string [requestBody] of valid JSON and custom headers absent or valid:
    [invoke] issues its request with the original string as the written
    body whatever the method, and the header set carries "Content-Type":
    the value [requestHeaders] gives under exactly that key, and
    "application/json" when it gives none under exactly that key. *)
Theorem invoke_body_and_content_type params context m a b parsed customHeaders t :
  string_params params m a →
  get params "requestBody" = VStr b → b ≠ EmptyString →
  JSON_parse b = inr parsed →
  parsed_or_absent (get params "requestHeaders") customHeaders →
  ∃ o url options,
    Dist.invoke params context t =
      (o, t ++ [EvHttp url options (http t url options)]) ∧
    Dist.written_body options = Some (VStr b) ∧
    ro_headers options !! "Content-Type" =
      Some (default (VStr "application/json")
              (Object_assign ∅ customHeaders !! "Content-Type")).
Proof.
  intros Hsp Hrb Hbne Hp Hpa.
  pose proof Hbne as Hbt. apply truthy_str in Hbt.
  destruct (build_request_string_params params context m a t Hsp)
    as [(msg' & _ & Hbp & _) | [(parsed' & msg' & _ & Hht & Hhp & _) |
        (parsed' & custom & _ & Hph & Hb)]].
  - rewrite Hrb in Hbp. simpl in Hbp. congruence.
  - exfalso. by eapply parsed_or_absent_inv.
  - assert (custom = customHeaders) as ->.
    { destruct Hpa, Hph; congruence. }
    destruct (invoke_built _ _ _ _ _ _ Hb) as (o & Ho & _ & _).
    eexists o, _, _. split; [exact Ho|]. rewrite Hrb.
    unfold Dist.written_body, built_options. cbn [ro_headers ro_body].
    split.
    + by rewrite !Hbt.
    + rewrite apply_authentication_lookup by done.
      rewrite Object_assign_lookup. unfold body_headers. rewrite Hbt.
      destruct (Object_assign ∅ customHeaders !! "Content-Type"); [done|].
      by rewrite lookup_insert_eq.
Qed.

(** C6 (amended).  The request an [invoke] issues carries the headers of the
    same call made without secrets, plus at most one authentication header,
    by first match among the secrets that are truthy (set and not empty):
    AUTHORIZATION_HEADER as "Authorization", else API_KEY as "X-API-Key",
    else BEARER_TOKEN as "Authorization: Bearer <token>".  In particular,
    with a truthy API_KEY and no truthy AUTHORIZATION_HEADER, "X-API-Key" is
    set and "Authorization" is left as it was, whatever BEARER_TOKEN is. *)
Theorem authentication_first_match params context t o url options answer :
  Dist.invoke params context t = (o, t ++ [EvHttp url options answer]) →
  ∃ headers,
    (∃ o' answer',
       Dist.invoke params (without_secrets context) t =
         (o', t ++ [EvHttp url (with_headers options headers) answer'])) ∧
    let secret := get (secrets context) in
    (if truthy (secret "AUTHORIZATION_HEADER") then
       ro_headers options = <["Authorization" := secret "AUTHORIZATION_HEADER"]> headers
     else if truthy (secret "API_KEY") then
       ro_headers options = <["X-API-Key" := secret "API_KEY"]> headers
     else if truthy (secret "BEARER_TOKEN") then
       ro_headers options =
         <["Authorization" := VStr ("Bearer " +:+ ToString (secret "BEARER_TOKEN"))]>
           headers
     else ro_headers options = headers) ∧
    (truthy (secret "AUTHORIZATION_HEADER") = false →
     truthy (secret "API_KEY") = true →
     ro_headers options !! "X-API-Key" = Some (secret "API_KEY") ∧
     ro_headers options !! "Authorization" = headers !! "Authorization").
Proof.
  intros Hrun.
  destruct (invoke_cases params context t)
    as [(e & _ & He) | (url' & METHOD & options' & o' & Hb & Hi & _)];
    rewrite Hrun in *.
  { injection He as _ Ht. apply (f_equal length) in Ht.
    rewrite length_app in Ht. simpl in Ht. lia. }
  injection Hi as _ Ht. apply app_inj_tail in Ht as [_ [= <- <- _]].
  destruct (build_request_secrets params context (without_secrets context) t
              url METHOD options Hb) as (headers & Hh & Hb').
  exists headers. split.
  { destruct (invoke_built _ _ _ _ _ _ Hb') as (o'' & Ho'' & _). eauto. }
  rewrite Hh. unfold Dist.apply_authentication. split.
  - repeat case_match; reflexivity.
  - intros -> ->. by rewrite lookup_insert_eq, lookup_insert_ne.
Qed.
(** C8 (amended).  [halt] never throws and leaves the trace alone; it
    returns status "halted", the method or "unknown" when that is falsy,
    the address or else the WEBHOOK_BASE_URL of the environment or else
    "unknown", the reason as given, the clock's timestamp,
    [cleanup_completed] true, and [partial_results_logged] true exactly when
    [context.partial_results] is truthy. *)
Theorem halt_returns params context t :
  ∃ r, Dist.halt params context t = (Return r, t) ∧
    r !! "status" = Some (VStr "halted") ∧
    r !! "method" =
      Some (if truthy (get params "method") then get params "method"
            else VStr "unknown") ∧
    r !! "url" =
      Some (if truthy (get params "address") then get params "address"
            else if truthy (get (env context) "WEBHOOK_BASE_URL")
                 then get (env context) "WEBHOOK_BASE_URL"
                 else VStr "unknown") ∧
    r !! "reason" = Some (get params "reason") ∧
    r !! "halted_at" = Some (VStr (now t)) ∧
    r !! "cleanup_completed" = Some (VBool true) ∧
    r !! "partial_results_logged" =
      Some (VBool (truthy (partial_results context))).
Proof.
  unfold Dist.halt. rewrite bind_clock. eexists. split; [reflexivity|].
  unfold js_or. repeat split; try by simplify_map_eq.
  simplify_map_eq. destruct (truthy (get params "address")) eqn:Ha; [|done].
  by rewrite Ha.
Qed.

(** Without an address, [invoke] stops at validation whatever the
    environment holds. *)
Lemma invoke_without_address params context t :
  truthy (get params "method") = true →
  truthy (get params "address") = false →
  Dist.invoke params context t =
    (Throw (Error "address parameter is required"), t).
Proof.
  intros Hm Ha. apply invoke_throws_early.
  unfold Dist.build_request. by rewrite Hm, Ha.
Qed.

End dist_facts.

Section script_facts.
Context `{Platform}.

Lemma script_apply_authentication_lookup context (headers : gmap string value) (k : string) :
  k ≠ "Authorization" → k ≠ "X-API-Key" →
  Script.apply_authentication context headers !! k = headers !! k.
Proof.
  intros H1 H2. unfold Script.apply_authentication.
  repeat case_match; by rewrite ?lookup_insert_ne.
Qed.

Lemma makeWebhookRequest_sends (m : string) url headers body accepted t :
  ∃ o options,
    Script.makeWebhookRequest (VStr m) url headers body accepted t =
      (o, t ++ [EvHttp url options (http t url options)]) ∧
    ro_method options = VStr m ∧
    ro_body options = (if truthy body && supports_body m then body else VUndefined) ∧
    ∀ k, k ≠ "Content-Type" → ro_headers options !! k = own_properties headers !! k.
Proof.
  set (body' := match body with VUndefined => VNull | v => v end).
  assert (Hbody : truthy body' = truthy body ∧ (truthy body = true → body' = body))
    by (by destruct body).
  destruct Hbody as [Htr Hsame].
  set (options := if truthy body && supports_body m
                  then with_headers (with_body {| ro_method := VStr m; ro_headers := own_properties headers; ro_body := VUndefined |} body')
                         (if negb (truthy (read_header headers "Content-Type"))
                             && negb (truthy (read_header headers "content-type"))
                          then <["Content-Type" := VStr "application/json"]> (own_properties headers)
                          else own_properties headers)
                  else {| ro_method := VStr m; ro_headers := own_properties headers; ro_body := VUndefined |}).
  assert (Hrun : ∃ o, Script.makeWebhookRequest (VStr m) url headers body accepted t =
                      (o, t ++ [EvHttp url options (http t url options)])).
  { unfold Script.makeWebhookRequest. fold body'. rewrite Htr.
    rewrite bind_run.
    assert (Hsup : (if truthy body
                    then METHOD ← call_toUpperCase "method" (VStr m);
                         mret (array_includes [VStr "POST"; VStr "PUT"; VStr "PATCH"; VStr "DELETE"] (VStr METHOD))
                    else mret false) t = (Return (truthy body && supports_body m), t)).
    { by destruct (truthy body). }
    rewrite Hsup. fold options.
    unfold try_catch. rewrite bind_run. unfold Script.fetch.
    destruct (http t url options) as [e|response text].
    { rewrite bind_run.
      destruct (silent_caught_message e) as ([?|?] & -> & _); eauto. }
    match goal with
    | |- context [(?c ≫= _) (t ++ ?l)] =>
        let Hs := fresh in
        assert (Hs : silent c) by silent_tac;
        destruct Hs as ([?|?] & Hs & _); rewrite (bind_run c), Hs
    end; [eauto|].
    rewrite bind_run.
    match goal with
    | |- context [caught_message ?e] =>
        destruct (silent_caught_message e) as ([?|?] & -> & _); eauto
    end. }
  destruct Hrun as [o Ho]. exists o, options. split; [exact Ho|].
  unfold options. destruct (truthy body && supports_body m) eqn:Hsb; simpl.
  - apply andb_true_iff in Hsb as [Hb _]. rewrite (Hsame Hb).
    split; [done|]. split; [done|]. intros k Hk.
    case_match; [by rewrite lookup_insert_ne | done].
  - done.
Qed.

(** [src/script.mjs] classifies by the same rule, into its [success] flag:
    its result has no [status] and no [error] field. *)
Lemma makeWebhookRequest_success (m : string) url headers body codes t o options
    response text :
  Script.makeWebhookRequest (VStr m) url headers body (VArr codes) t =
    (o, t ++ [EvHttp url options (Resolved response text)]) →
  ∃ r (success : bool), o = Return r ∧
    r !! "success" = Some (VBool success) ∧
    (success = true ↔
       200 ≤ statusCode response < 300 ∨ VNum (statusCode response) ∈ codes) ∧
    r !! "status" = None ∧ r !! "error" = None.
Proof.
  unfold Script.makeWebhookRequest. rewrite bind_run.
  match goal with
  | |- context [match ?c t with _ => _ end] =>
      assert (Hs : silent c) by silent_tac;
      destruct Hs as ([b|e] & -> & _)
  end.
  2: { intros [= _ Ht]. apply (f_equal length) in Ht.
       rewrite length_app in Ht. simpl in Ht. lia. }
  unfold try_catch. rewrite bind_run. unfold Script.fetch.
  match goal with
  | |- context [http t url ?opts] =>
      destruct (http t url opts) as [e|response' text'] eqn:Hanswer
  end.
  { rewrite bind_run.
    destruct (silent_caught_message e) as ([?|?] & -> & _);
      intros [= _ Ht]; apply app_inj_tail in Ht as [_ Ht]; discriminate. }
  rewrite bind_run. unfold Script.response_ok.
  set (c := statusCode response').
  destruct ((200 <=? c) && (c <=? 299)) eqn:Hok.
  - cbv beta iota delta [mret M_ret mbind M_bind clock]. intros [= <- Ht].
    apply app_inj_tail in Ht as [_ [= <- <- <-]]. fold c.
    eexists _, true. split; [reflexivity|]. split; [by simplify_map_eq|].
    split; [|by simplify_map_eq].
    apply andb_true_iff in Hok as [?%Z.leb_le ?%Z.leb_le]. split; [|done].
    intros _. left. lia.
  - cbv beta iota delta [mret M_ret mbind M_bind clock call_includes].
    intros [= <- Ht].
    apply app_inj_tail in Ht as [_ [= <- <- <-]]. fold c.
    eexists _, _. split; [reflexivity|]. split; [by simplify_map_eq|].
    split; [|by simplify_map_eq].
    rewrite array_includes_num. split; [by right|].
    intros [Hc|Hc]; [|done]. exfalso.
    apply andb_false_iff in Hok as [?%Z.leb_gt | ?%Z.leb_gt]; lia.
Qed.
(** The error handler of [src/script.mjs] recovers nothing: it throws the
    error it was given, whatever its message. *)
Lemma script_error_rethrows params context err msg t :
  get params "error" = VObj err →
  assoc "message" err = Some (VStr msg) →
  Script.error params context t = (Throw (JsThrown (VObj err)), t).
Proof.
  intros Herr Hmsg. unfold Script.error. rewrite Herr.
  unfold Script.optional_message_includes. rewrite Hmsg. simpl default.
  unfold call_includes. simpl ToString.
  by destruct (str_includes "fetch" msg), (str_includes "network" msg),
    (str_includes "timeout" msg).
Qed.

(** C10 (amended).  In [src/script.mjs], with a non-empty string method and
    a truthy address, [invoke] issues its request whenever [requestHeaders]
    is falsy, not a string, or a string of valid JSON: a non-string value is
    merged into the header set as it is, without parsing; a non-string
    [requestBody] is serialized with [JSON.stringify], a string one is taken
    verbatim with no JSON check; the body is attached when it is truthy and
    the upper-cased method is POST, PUT, PATCH or DELETE. *)
Theorem script_invoke_accepts params context m customHeaders t :
  get params "method" = VStr m → m ≠ EmptyString →
  truthy (get params "address") = true →
  script_headers (get params "requestHeaders") customHeaders →
  let body := script_body (get params "requestBody") in
  let url := get params "address" in
  ∃ o options,
    Script.invoke params context t =
      (o, t ++ [EvHttp url options (http t url options)]) ∧
    ro_method options = VStr m ∧
    ro_body options = (if truthy body && supports_body m then body else VUndefined) ∧
    ∀ k v, Object_assign ∅ customHeaders !! k = Some v →
           k ≠ "Authorization" → k ≠ "X-API-Key" → k ≠ "Content-Type" →
           ro_headers options !! k = Some v.
Proof.
  intros Hm Hmne Ha Hsh body url.
  apply truthy_str in Hmne.
  set (initial := {| own_properties :=
                       {[ "User-Agent" := VStr "sgnl-generic-webhook/1.0.0" ]};
                     prototype := None |}).
  set (headers := authenticated context (assign initial customHeaders)).
  assert (Hinv : Script.invoke params context t =
            Script.makeWebhookRequest (VStr m) url headers body
              match get params "acceptedStatusCodes" with
              | VUndefined => VArr []
              | v => v
              end t).
  { unfold Script.invoke. rewrite Hm, Ha, Hmne. cbn [negb].
    rewrite bind_run.
    match goal with
    | |- context [match ?c t with _ => _ end] =>
        assert (Hh : c t = (Return (assign initial customHeaders), t))
    end.
    { destruct Hsh as [v Hv | v Hv Hns | s parsed Hs Hp].
      - by rewrite Hv.
      - rewrite Hv. destruct v; try done. by destruct (Hns s).
      - apply truthy_str in Hs. rewrite Hs, Hp. done. }
    rewrite Hh. cbv beta iota. fold (authenticated context (assign initial customHeaders)).
    fold headers. fold (script_body (get params "requestBody")). fold body.
    rewrite bind_run.
    by destruct (Script.makeWebhookRequest _ _ _ _ _ t) as [[r|e] t']. }
  destruct (makeWebhookRequest_sends m url headers body
              match get params "acceptedStatusCodes" with
              | VUndefined => VArr []
              | v => v
              end t) as (o & options & Ho & Hmeth & Hbody & Hhead).
  exists o, options. rewrite Hinv. split; [exact Ho|]. split; [done|]. split; [done|].
  intros k v Hk H1 H2 H3. rewrite Hhead by done. unfold headers. simpl.
  rewrite script_apply_authentication_lookup by done.
  by rewrite Object_assign_lookup, Hk.
Qed.
End script_facts.

(** ** More on [dist/index.js] *)

Lemma get_insert_ne (o : gmap string value) (k k' : string) (v : value) :
  k ≠ k' → get (<[k := v]> o) k' = get o k'.
Proof. intros Hne. unfold get. by rewrite lookup_insert_ne. Qed.

Lemma get_insert_eq (o : gmap string value) (k : string) (v : value) :
  get (<[k := v]> o) k = v.
Proof. unfold get. by rewrite lookup_insert_eq. Qed.

Lemma get_delete_ne (o : gmap string value) (k k' : string) :
  k ≠ k' → get (delete k o) k' = get o k'.
Proof. intros Hne. unfold get. by rewrite lookup_delete_ne. Qed.

Lemma trace_grows_not (t : list event) (e : event) : t ≠ t ++ [e].
Proof.
  intros Ht. apply (f_equal length) in Ht. rewrite length_app in Ht. simpl in Ht. lia.
Qed.

Lemma quiet_silent {A} (m : M A) : silent m → quiet m.
Proof. intros (o & Ho & _) t. by rewrite Ho. Qed.

Lemma quiet_bind {A B} (m : M A) (f : A → M B) :
  quiet m → (∀ a, quiet (f a)) → quiet (m ≫= f).
Proof.
  intros Hm Hf t. rewrite bind_run. specialize (Hm t).
  destruct (m t) as [[a|e] t']; simpl in Hm; subst t'; [apply Hf | done].
Qed.

Lemma quiet_clock `{Platform} : quiet clock.
Proof. by intros t. Qed.

Section dist_more_facts.
Context `{Platform}.

(** An [invoke] whose trace grew by a request built that request. *)
Lemma invoke_request_inv params context t o url options answer :
  Dist.invoke params context t = (o, t ++ [EvHttp url options answer]) →
  ∃ METHOD,
    Dist.build_request params context t = (Return (url, METHOD, options), t) ∧
    http t url options = answer.
Proof.
  intros Hrun.
  destruct (invoke_cases params context t)
    as [(e & _ & He) | (url' & METHOD & options' & o' & Hb & Hi & _)];
    rewrite Hrun in *.
  - injection He as _ Ht. apply (f_equal length) in Ht.
    rewrite length_app in Ht. simpl in Ht. lia.
  - injection Hi as _ Ht. apply app_inj_tail in Ht as [_ [= <- <- <-]]. eauto.
Qed.

(** [invoke] after a response: the result is the classified one, unless
    [acceptedStatusCodes.includes] throws. *)
Lemma invoke_resolved params context t url METHOD options response body :
  Dist.build_request params context t = (Return (url, METHOD, options), t) →
  http t url options = Resolved response body →
  Dist.invoke params context t =
    (match (call_includes "acceptedStatusCodes" (accepted_or_default params)
              (VNum (statusCode response)) []).1 with
     | Return listed =>
         Return (classified listed url METHOD response body
                   (now (t ++ [EvHttp url options (Resolved response body)])))
     | Throw e => Throw e
     end, t ++ [EvHttp url options (Resolved response body)]).
Proof.
  intros Hb Hanswer. unfold Dist.invoke. rewrite bind_run, Hb. simpl.
  rewrite bind_run. unfold try_catch, Dist.makeHttpRequest. rewrite Hanswer.
  rewrite bind_run. unfold clock. rewrite bind_run.
  fold (accepted_or_default params).
  destruct (silent_call_includes "acceptedStatusCodes" (accepted_or_default params)
              (VNum (statusCode response))) as ([b|e] & Hs & _); rewrite !Hs; simpl.
  - unfold classified, job_result. by destruct (b || _).
  - done.
Qed.

(** [invoke] after a rejected request. *)
Lemma invoke_rejected params context t url METHOD options e :
  Dist.build_request params context t = (Return (url, METHOD, options), t) →
  http t url options = Rejected e →
  Dist.invoke params context t =
    (match (caught_message e []).1 with
     | Return m => Throw (Error ("HTTP request failed: " +:+ m))
     | Throw e' => Throw e'
     end, t ++ [EvHttp url options (Rejected e)]).
Proof.
  intros Hb Hanswer. unfold Dist.invoke. rewrite bind_run, Hb. simpl.
  rewrite bind_run. unfold try_catch, Dist.makeHttpRequest. rewrite Hanswer.
  rewrite bind_run.
  by destruct (silent_caught_message e) as ([m|e'] & Hs & _); rewrite !Hs.
Qed.

(** X1.  When the HTTP request of an [invoke] is rejected with an Error of
    message [m], [invoke] throws a new Error whose message is
    "HTTP request failed: " followed by [m]; the name of the original error
    is not kept. *)
Theorem invoke_wraps_transport_failure params context t o url options name m :
  Dist.invoke params context t =
    (o, t ++ [EvHttp url options (Rejected (JsError name m))]) →
  o = Throw (Error ("HTTP request failed: " +:+ m)).
Proof.
  intros Hrun.
  destruct (invoke_request_inv _ _ _ _ _ _ _ Hrun) as (METHOD & Hb & Hanswer).
  rewrite (invoke_rejected _ _ _ _ _ _ _ Hb Hanswer) in Hrun.
  by injection Hrun as <-.
Qed.

(** X2.  [acceptedStatusCodes] is used as given, with no check of its
    type: when it is null, a boolean, a number or an object, an [invoke]
    whose request was answered throws a TypeError after the response has
    arrived, whatever the status, 2xx included. *)
Theorem invoke_throws_after_response params context t o url options response body :
  Dist.invoke params context t =
    (o, t ++ [EvHttp url options (Resolved response body)]) →
  lacks_includes (get params "acceptedStatusCodes") →
  ∃ msg, o = Throw (TypeError msg).
Proof.
  intros Hrun Hlack.
  destruct (invoke_request_inv _ _ _ _ _ _ _ Hrun) as (METHOD & Hb & Hanswer).
  rewrite (invoke_resolved _ _ _ _ _ _ _ _ Hb Hanswer) in Hrun.
  injection Hrun as <-. unfold accepted_or_default.
  destruct (get params "acceptedStatusCodes"); try done; simpl; eauto.
Qed.

(** X3.  When [acceptedStatusCodes] is a string, its [includes] is the
    substring search: an answered [invoke] returns, with status "success"
    exactly when the status code is 2xx or its decimal text occurs in the
    string, and "http_error" otherwise. *)
Theorem invoke_accepts_by_substring params context t o url options response body s :
  Dist.invoke params context t =
    (o, t ++ [EvHttp url options (Resolved response body)]) →
  get params "acceptedStatusCodes" = VStr s →
  ∃ r, o = Return r ∧
    (r !! "status" = Some (VStr "success") ↔
       200 ≤ statusCode response < 300 ∨
       ∃ a b, s = a +:+ string_of_Z (statusCode response) +:+ b) ∧
    (r !! "status" = Some (VStr "success") ∨ r !! "status" = Some (VStr "http_error")).
Proof.
  intros Hrun Hs.
  destruct (invoke_request_inv _ _ _ _ _ _ _ Hrun) as (METHOD & Hb & Hanswer).
  rewrite (invoke_resolved _ _ _ _ _ _ _ _ Hb Hanswer) in Hrun.
  injection Hrun as <-. unfold accepted_or_default. rewrite Hs. simpl.
  eexists. split; [reflexivity|]. unfold classified, job_result.
  set (c := statusCode response).
  rewrite <- str_includes_spec.
  assert (Hstd : (200 <=? c) && (c <? 300) = true ↔ 200 ≤ c < 300) by
    (rewrite andb_true_iff, Z.leb_le, Z.ltb_lt; done).
  destruct (str_includes (string_of_Z c) s) eqn:Hi; simpl.
  - split; [|left; by simplify_map_eq]. split; [by right | intros _; by simplify_map_eq].
  - destruct ((200 <=? c) && (c <? 300)) eqn:Hok.
    + split; [|left; by simplify_map_eq].
      split; [intros _; left; by apply Hstd | intros _; by simplify_map_eq].
    + split; [|right; by simplify_map_eq]. split.
      * intros Hsucc. by simplify_map_eq.
      * intros [Hc|Hc]; [apply Hstd in Hc|]; congruence.
Qed.

(** X4.  Only the upper-cased method matters to [invoke]: replacing a
    non-empty method by another non-empty one that [toUpperCase] maps to
    the same string, whatever the case mapping of the host is, changes
    neither the request nor the outcome. *)
Theorem invoke_method_case params context (m1 m2 : string) t :
  get params "method" = VStr m1 →
  m1 ≠ EmptyString → m2 ≠ EmptyString →
  toUpperCase m1 = toUpperCase m2 →
  Dist.invoke (<["method" := VStr m2]> params) context t =
  Dist.invoke params context t.
Proof.
  intros Hm Hm1 Hm2 Hup. apply truthy_str in Hm1, Hm2.
  unfold Dist.invoke, Dist.build_request.
  rewrite get_insert_eq, !get_insert_ne by done.
  rewrite Hm, Hm1, Hm2.
  unfold call_toUpperCase. by rewrite Hup.
Qed.

(** The recovery [Dist.error] makes for a message. *)
Lemma error_unfold params context err msg t :
  get params "error" = VObj err →
  assoc "message" err = Some (VStr msg) →
  Dist.error params context t =
    if str_includes "rate limit" msg || str_includes "429" msg then
      try_catch (Dist.invoke (delete "error" params) context)
        (λ retryError,
           m ← caught_message retryError;
           throw (Error ("Retry failed after rate limit backoff: " +:+ m)))
        (t ++ [EvSleep 5000])
    else if str_includes "timeout" msg || str_includes "ETIMEDOUT" msg then
      (Return {[ "status" := VStr "timeout_error";
                 "method" := get params "method";
                 "url" := js_or (get params "address")
                            (get (env context) "WEBHOOK_BASE_URL");
                 "recovery_method" := VStr "timeout_handling";
                 "original_error" := VStr msg;
                 "recovered_at" := VStr (now t);
                 "recommendation" :=
                   VStr "Consider increasing timeout or checking network connectivity"
              ]}, t)
    else if str_includes "ENOTFOUND" msg || str_includes "DNS" msg then
      (Return {[ "status" := VStr "dns_error";
                 "method" := get params "method";
                 "url" := js_or (get params "address")
                            (get (env context) "WEBHOOK_BASE_URL");
                 "recovery_method" := VStr "dns_failure_handling";
                 "original_error" := VStr msg;
                 "recovered_at" := VStr (now t);
                 "recommendation" :=
                   VStr "Verify the target URL is correct and accessible" ]}, t)
    else (Throw (Error ("Unrecoverable webhook error: " +:+ msg)), t).
Proof.
  intros Herr Hmsg.
  unfold Dist.error, Dist.error_with. rewrite Herr. simpl read_message. rewrite Hmsg. simpl default.
  rewrite bind_ret. simpl call_includes. rewrite bind_ret.
  destruct (str_includes "rate limit" msg); [|destruct (str_includes "429" msg)];
    simpl orb; cbv iota; rewrite ?bind_ret; try apply bind_sleep.
  destruct (str_includes "timeout" msg); [|destruct (str_includes "ETIMEDOUT" msg)];
    simpl orb; cbv iota; rewrite ?bind_ret, ?bind_clock; try reflexivity.
  destruct (str_includes "ENOTFOUND" msg); [|destruct (str_includes "DNS" msg)];
    simpl orb; cbv iota; rewrite ?bind_ret, ?bind_clock; reflexivity.
Qed.

(** X5.  [error] needs [params.error] to be an object whose [message] is a
    string or an array: for every other value (absent, a string, an object
    without message, ...) it throws a TypeError and does nothing else. *)
Theorem error_needs_message params context t :
  ¬ has_text_message (get params "error") →
  ∃ msg, Dist.error params context t = (Throw (TypeError msg), t).
Proof.
  intros Hno. unfold Dist.error, Dist.error_with.
  destruct (get params "error") as [| | | | | |err]; simpl read_message;
    try (eexists; reflexivity).
  rewrite bind_ret.
  destruct (assoc "message" err) as [message|] eqn:Hm; simpl default;
    [|eexists; reflexivity].
  destruct message; try (eexists; reflexivity);
    destruct Hno; eexists _, _; eauto.
Qed.

(** X6.  When the retry that [error] makes after the back-off is answered,
    [error] returns (it does not throw) the result of the retried [invoke],
    classified as usual: status "success" exactly for a 2xx or listed status
    code, and "http_error" otherwise. *)
Theorem error_retry_classifies params context err msg t o url options response body codes :
  get params "error" = VObj err →
  assoc "message" err = Some (VStr msg) →
  Dist.error params context t =
    (o, t ++ [EvSleep 5000; EvHttp url options (Resolved response body)]) →
  accepted_codes params codes →
  ∃ r, o = Return r ∧
    r !! "status_code" = Some (VNum (statusCode response)) ∧
    (r !! "status" = Some (VStr "success") ↔
       (200 ≤ statusCode response < 300 ∨ VNum (statusCode response) ∈ codes)) ∧
    (r !! "status" = Some (VStr "success") ∨ r !! "status" = Some (VStr "http_error")).
Proof.
  intros Herr Hmsg Hrun Hcodes.
  rewrite (error_unfold _ _ _ _ _ Herr Hmsg) in Hrun.
  destruct (str_includes "rate limit" msg || str_includes "429" msg).
  2: { repeat case_match; injection Hrun as _ Ht; apply (f_equal length) in Ht;
       rewrite length_app in Ht; simpl in Ht; lia. }
  unfold try_catch in Hrun.
  destruct (invoke_cases (delete "error" params) context (t ++ [EvSleep 5000]))
    as [(e & _ & He) | (url' & METHOD & options' & o' & Hb & Hi & _)].
  { rewrite He in Hrun. destruct (silent_caught_message e) as ([?|?] & Hs & _).
    all: rewrite bind_run, Hs in Hrun; injection Hrun as _ Ht;
      apply (f_equal length) in Ht; rewrite !length_app in Ht; simpl in Ht; lia. }
  assert (Hanswer : url' = url ∧ options' = options ∧
                    http (t ++ [EvSleep 5000]) url' options' = Resolved response body).
  { rewrite Hi in Hrun. destruct o' as [r|e].
    - injection Hrun as _ Ht. rewrite <- app_assoc in Ht.
      apply app_inv_head in Ht. simpl in Ht. by injection Ht as -> -> ->.
    - destruct (silent_caught_message e) as ([?|?] & Hs & _).
      all: rewrite bind_run, Hs in Hrun; injection Hrun as _ Ht;
        rewrite <- app_assoc in Ht; apply app_inv_head in Ht; simpl in Ht;
        by injection Ht as -> -> ->. }
  destruct Hanswer as (-> & -> & Hanswer).
  rewrite (invoke_resolved _ _ _ _ _ _ _ _ Hb Hanswer) in Hrun.
  assert (Hacc : accepted_or_default (delete "error" params) = VArr codes).
  { unfold accepted_or_default. rewrite get_delete_ne by done.
    by destruct Hcodes as [[-> ->] | ->]. }
  rewrite Hacc in Hrun. simpl in Hrun. injection Hrun as <- _.
  eexists. split; [reflexivity|]. unfold classified, job_result.
  set (c := statusCode response).
  assert (Hstd : (200 <=? c) && (c <? 300) = true ↔ 200 ≤ c < 300) by
    (rewrite andb_true_iff, Z.leb_le, Z.ltb_lt; done).
  pose proof (array_includes_num codes c) as Hin.
  destruct (array_includes codes (VNum c) || ((200 <=? c) && (c <? 300))) eqn:Hs.
  - apply orb_true_iff in Hs. split; [by simplify_map_eq|].
    split; [|left; by simplify_map_eq].
    split; [intros _; tauto | intros _; by simplify_map_eq].
  - apply orb_false_iff in Hs as [Hs1 Hs2]. split; [by simplify_map_eq|].
    split; [|right; by simplify_map_eq]. split.
    + intros Hsucc. by simplify_map_eq.
    + intros [Hc|Hc]; [apply Hstd in Hc | apply Hin in Hc]; congruence.
Qed.


(** The six patterns read through the prefix [invoke] puts before a
    transport message. *)
Lemma wrapped_message_includes (m : string) :
  let w := "HTTP request failed: " +:+ m in
  str_includes "rate limit" w = str_includes "rate limit" m ∧
  str_includes "429" w = str_includes "429" m ∧
  str_includes "timeout" w = str_includes "timeout" m ∧
  str_includes "ETIMEDOUT" w = str_includes "ETIMEDOUT" m ∧
  str_includes "ENOTFOUND" w = str_includes "ENOTFOUND" m ∧
  str_includes "DNS" w = str_includes "DNS" m.
Proof. repeat split; reflexivity. Qed.

(** X7.  [error] classifies the message [invoke] produces for a transport
    failure as it would the transport message itself: the prefix
    "HTTP request failed: " matches none of the six patterns.  So the
    handler backs off when [m] has "rate limit" or "429", else reports
    timeout_error or dns_error with the prefixed text as [original_error],
    else throws "Unrecoverable webhook error: HTTP request failed: " and
    [m]. *)
Theorem error_after_transport_failure params context err m t :
  get params "error" = VObj err →
  assoc "message" err = Some (VStr ("HTTP request failed: " +:+ m)) →
  if str_includes "rate limit" m || str_includes "429" m then
    ∃ rest, (Dist.error params context t).2 = t ++ EvSleep 5000 :: rest
  else if str_includes "timeout" m || str_includes "ETIMEDOUT" m then
    ∃ r, Dist.error params context t = (Return r, t) ∧
         r !! "status" = Some (VStr "timeout_error") ∧
         r !! "original_error" = Some (VStr ("HTTP request failed: " +:+ m))
  else if str_includes "ENOTFOUND" m || str_includes "DNS" m then
    ∃ r, Dist.error params context t = (Return r, t) ∧
         r !! "status" = Some (VStr "dns_error") ∧
         r !! "original_error" = Some (VStr ("HTTP request failed: " +:+ m))
  else
    Dist.error params context t =
      (Throw (Error ("Unrecoverable webhook error: HTTP request failed: " +:+ m)), t).
Proof.
  intros Herr Hmsg. rewrite (error_unfold _ _ _ _ _ Herr Hmsg).
  destruct (wrapped_message_includes m) as (-> & -> & -> & -> & -> & ->).
  destruct (str_includes "rate limit" m || str_includes "429" m).
  { unfold try_catch.
    destruct (invoke_cases (delete "error" params) context (t ++ [EvSleep 5000]))
      as [(e & _ & ->) | (url & METHOD & options & o & _ & -> & _)].
    - rewrite bind_run.
      destruct (silent_caught_message e) as ([?|?] & -> & _);
        exists []; simpl; by rewrite <- ?app_assoc.
    - destruct o as [r|e]; [eexists; simpl; by rewrite <- ?app_assoc|].
      rewrite bind_run.
      destruct (silent_caught_message e) as ([?|?] & -> & _);
        eexists; simpl; by rewrite <- ?app_assoc. }
  destruct (str_includes "timeout" m || str_includes "ETIMEDOUT" m).
  { eexists. split; [reflexivity|]. by simplify_map_eq. }
  destruct (str_includes "ENOTFOUND" m || str_includes "DNS" m).
  { eexists. split; [reflexivity|]. by simplify_map_eq. }
  reflexivity.
Qed.

(** X8.  Precedence among the headers of the issued request, for well-typed
    parameters: outside the two authentication names, a header of
    [requestHeaders] wins over the defaults (User-Agent, and Content-Type
    when a body is given) and nothing else is sent; AUTHORIZATION_HEADER
    overrides an Authorization of [requestHeaders]; with API_KEY alone,
    X-API-Key is the secret and an Authorization of [requestHeaders] passes
    through. *)
Theorem invoke_header_precedence params context m a parsed customHeaders t :
  string_params params m a →
  parsed_or_absent (get params "requestBody") parsed →
  parsed_or_absent (get params "requestHeaders") customHeaders →
  ∃ o url options,
    Dist.invoke params context t =
      (o, t ++ [EvHttp url options (http t url options)]) ∧
    (∀ k, k ≠ "Authorization" → k ≠ "X-API-Key" →
       ro_headers options !! k =
         match Object_assign ∅ customHeaders !! k with
         | Some v => Some v
         | None =>
             if String.eqb k "User-Agent" then
               Some (VStr "sgnl-generic-webhook/1.0.0")
             else if String.eqb k "Content-Type"
                     && truthy (get params "requestBody") then
               Some (VStr "application/json")
             else None
         end) ∧
    (truthy (get (secrets context) "AUTHORIZATION_HEADER") = true →
       ro_headers options !! "Authorization" =
         Some (get (secrets context) "AUTHORIZATION_HEADER")) ∧
    (truthy (get (secrets context) "AUTHORIZATION_HEADER") = false →
     truthy (get (secrets context) "API_KEY") = true →
       ro_headers options !! "X-API-Key" = Some (get (secrets context) "API_KEY") ∧
       ro_headers options !! "Authorization" =
         Object_assign ∅ customHeaders !! "Authorization").
Proof.
  intros Hsp Hpb Hph.
  destruct (build_request_string_params params context m a t Hsp)
    as [(msg' & Hbt & Hbp & _) | [(parsed' & msg' & _ & Hht & Hhp & _) |
        (parsed' & custom & _ & Hph' & Hb)]].
  - exfalso. exact (parsed_or_absent_inv _ _ msg' Hpb Hbt Hbp).
  - exfalso. exact (parsed_or_absent_inv _ _ msg' Hph Hht Hhp).
  - assert (custom = customHeaders) as ->.
    { destruct Hph, Hph'; congruence. }
    destruct (invoke_built _ _ _ _ _ _ Hb) as (o & Ho & _ & _).
    eexists o, _, _. split; [exact Ho|].
    unfold built_options. cbn [ro_headers]. split; [|split].
    + intros k Hk1 Hk2. rewrite apply_authentication_lookup by done.
      rewrite Object_assign_lookup.
      destruct (Object_assign ∅ customHeaders !! k); [done|].
      unfold body_headers.
      destruct (String.eqb_spec k "User-Agent") as [->|Hua].
      { by destruct (truthy (get params "requestBody")). }
      destruct (String.eqb_spec k "Content-Type") as [->|Hct]; simpl.
      { by destruct (truthy (get params "requestBody")). }
      destruct (truthy (get params "requestBody"));
        by rewrite ?lookup_insert_ne, lookup_singleton_ne.
    + intros Ha. unfold Dist.apply_authentication. rewrite Ha.
      by rewrite lookup_insert_eq.
    + intros Ha Hk. unfold Dist.apply_authentication. rewrite Ha, Hk.
      rewrite lookup_insert_eq, lookup_insert_ne by done.
      rewrite Object_assign_lookup.
      destruct (Object_assign ∅ customHeaders !! "Authorization"); [done|].
      unfold body_headers. by destruct (truthy (get params "requestBody")).
Qed.

(** X9.  A truthy [method] that is not a string (a number, an array, an
    object) makes [invoke] throw before any request is issued; with a truthy
    address and no suffix the exception is the TypeError of
    [method.toUpperCase]. *)
Theorem invoke_rejects_non_string_method params context t :
  truthy (get params "method") = true →
  (∀ m, get params "method" ≠ VStr m) →
  ∃ e, is_error e ∧ Dist.invoke params context t = (Throw e, t) ∧
       (truthy (get params "address") = true →
        truthy (get params "addressSuffix") = false →
        ∃ msg, e = TypeError msg).
Proof.
  intros Hm Hns.
  assert (Hb : ∃ e, is_error e ∧ Dist.build_request params context t = (Throw e, t) ∧
            (truthy (get params "address") = true →
             truthy (get params "addressSuffix") = false →
             ∃ msg, e = TypeError msg)).
  { unfold Dist.build_request. rewrite Hm. cbn [negb].
    destruct (truthy (get params "address")); cbn [negb].
    2: { eexists. split; [|split; [reflexivity|done]]. done. }
    rewrite bind_run.
    match goal with
    | |- context [match ?c t with _ => _ end] =>
        assert (Hs : silent c) by silent_tac;
        destruct Hs as ([url|e] & Hs & He); rewrite Hs
    end.
    2: { exists e. split; [done|]. split; [done|]. intros _ Hsuf.
         rewrite Hsuf in Hs. discriminate (Hs []). }
    rewrite bind_run.
    destruct (get params "method") as [| |b|n|m|l|o] eqn:Hmeth; simpl in Hm |- *;
      try done; try (eexists; split; [|split; [reflexivity|eauto]]; done).
    by destruct (Hns m). }
  destruct Hb as (e & He & Hb & Hty). exists e. split; [done|]. split; [|done].
  by apply invoke_throws_early.
Qed.

Lemma error_rest_quiet params context (message : value) :
  quiet
    (timeout ← call_includes "error.message" message (VStr "timeout");
     timed_out ←
       (if timeout : bool then mret true
        else call_includes "error.message" message (VStr "ETIMEDOUT"));
     if timed_out : bool then
       recovered_at ← clock;
       mret ({[ "status" := VStr "timeout_error";
                "method" := get params "method";
                "url" := js_or (get params "address")
                           (get (env context) "WEBHOOK_BASE_URL");
                "recovery_method" := VStr "timeout_handling";
                "original_error" := message;
                "recovered_at" := VStr recovered_at;
                "recommendation" :=
                  VStr "Consider increasing timeout or checking network connectivity"
             ]} : gmap string value)
     else
     enotfound ← call_includes "error.message" message (VStr "ENOTFOUND");
     dns ←
       (if enotfound : bool then mret true
        else call_includes "error.message" message (VStr "DNS"));
     if dns : bool then
       recovered_at ← clock;
       mret ({[ "status" := VStr "dns_error";
                "method" := get params "method";
                "url" := js_or (get params "address")
                           (get (env context) "WEBHOOK_BASE_URL");
                "recovery_method" := VStr "dns_failure_handling";
                "original_error" := message;
                "recovered_at" := VStr recovered_at;
                "recommendation" :=
                  VStr "Verify the target URL is correct and accessible" ]}
             : gmap string value)
     else
     throw (Error ("Unrecoverable webhook error: " +:+ ToString message))).
Proof.
  repeat first
    [ apply quiet_clock
    | apply quiet_silent; solve [silent_tac]
    | apply quiet_bind; [|intros]
    | match goal with |- quiet (if ?b then _ else _) => destruct b end ].
Qed.

(** X10.  The effects of the three handlers of [dist/index.js], for every
    input: [invoke] issues no request or exactly one, and never sleeps;
    [error] does nothing, or sleeps 5000 ms once and then issues at most one
    request, never a request without the sleep before it; [halt] does
    neither. *)
Theorem dist_effects_bound params context t :
  ((Dist.invoke params context t).2 = t ∨
   ∃ url options,
     (Dist.invoke params context t).2 = t ++ [EvHttp url options (http t url options)]) ∧
  ((Dist.error params context t).2 = t ∨
   (Dist.error params context t).2 = t ++ [EvSleep 5000] ∨
   ∃ url options,
     (Dist.error params context t).2 =
       t ++ [EvSleep 5000;
             EvHttp url options (http (t ++ [EvSleep 5000]) url options)]) ∧
  (Dist.halt params context t).2 = t.
Proof.
  split; [|split; [|reflexivity]].
  - destruct (invoke_cases params context t)
      as [(e & _ & ->) | (url & METHOD & options & o & _ & -> & _)]; eauto.
  - unfold Dist.error, Dist.error_with. rewrite bind_run.
    destruct (silent_read_message (get params "error")) as ([message|e] & -> & _);
      [|by left].
    rewrite bind_run.
    destruct (silent_call_includes "error.message" message (VStr "rate limit"))
      as ([rate_limit|e] & -> & _); [|by left].
    rewrite bind_run.
    match goal with
    | |- context [match ?c t with _ => _ end] =>
        assert (Hs : silent c) by silent_tac;
        destruct Hs as ([rate_limited|e] & -> & _)
    end; [|by left].
    destruct rate_limited.
    2: { left. apply error_rest_quiet. }
    right. rewrite bind_sleep. unfold try_catch.
    destruct (invoke_cases (delete "error" params) context (t ++ [EvSleep 5000]))
      as [(e & _ & ->) | (url & METHOD & options & o & _ & -> & _)].
    + left. by destruct (silent_caught_message e) as ([?|?] & Hs & _);
        rewrite bind_run, Hs.
    + right. exists url, options. rewrite <- app_assoc.
      destruct o as [r|e]; [done|].
      by destruct (silent_caught_message e) as ([?|?] & Hs & _); rewrite bind_run, Hs.
Qed.

End dist_more_facts.

(** ** The URL fallback of [makeHttpRequest] *)

Section url_facts.
Import DistUrl.

Lemma strip_prefix_app (p s : string) : strip_prefix p (p +:+ s) = Some s.
Proof. induction p as [|a p IH]; simpl; [by destruct s|]. by rewrite Ascii.eqb_refl. Qed.

Lemma strip_prefix_Some (p s rest : string) :
  strip_prefix p s = Some rest → s = p +:+ rest.
Proof.
  revert s. induction p as [|a p IH]; intros s; simpl.
  - by intros [= ->].
  - destruct s as [|b s]; [done|].
    destruct (Ascii.eqb_spec a b) as [->|]; [|done]. intros Hs. by rewrite (IH _ Hs).
Qed.

Lemma starts_with_slash (s : string) :
  starts_with "/" s = true → ∃ s', s = String "/" s'.
Proof.
  destruct s as [|c s]; [done|]. cbn [starts_with].
  intros [Hc _]%andb_true_iff. apply Ascii.eqb_eq in Hc as <-. eauto.
Qed.

Lemma span_host_app (host tail : string) :
  has_char "/" host = false →
  tail = EmptyString ∨ starts_with "/" tail = true →
  span_host (host +:+ tail) = (host, tail).
Proof.
  intros Hh Ht. induction host as [|c host IH].
  - destruct Ht as [->|Ht]; [done|].
    apply starts_with_slash in Ht as [s' ->]. done.
  - simpl in Hh. apply orb_false_iff in Hh as [Hc Hh].
    simpl. rewrite Hc, IH; done.
Qed.

Lemma span_host_spec (s host tail : string) :
  span_host s = (host, tail) →
  s = host +:+ tail ∧ has_char "/" host = false ∧
  (tail = EmptyString ∨ starts_with "/" tail = true).
Proof.
  revert host tail. induction s as [|c s IH]; intros host tail; simpl.
  - intros [= <- <-]. auto.
  - destruct (Ascii.eqb_spec c "/") as [->|Hc].
    + intros [= <- <-]. auto.
    + destruct (span_host s) as [h r]. intros [= <- <-].
      destruct (IH h r eq_refl) as (-> & Hh & Ht). simpl.
      split; [done|]. split; [|done].
      apply orb_false_iff. split; [by apply Ascii.eqb_neq | done].
Qed.

Lemma before_colon_id (s : string) : has_char ":" s = false → before_colon s = s.
Proof.
  induction s as [|c s IH]; simpl; [done|]. intros [Hc Hs]%orb_false_iff.
  by rewrite Hc, IH.
Qed.

Lemma before_colon_app (h p : string) :
  has_char ":" h = false → before_colon (h +:+ ":" +:+ p) = h.
Proof.
  induction h as [|c h IH]; simpl; [done|]. intros [Hc Hs]%orb_false_iff.
  by rewrite Hc, IH.
Qed.

Lemma before_colon_free (s : string) : has_char ":" (before_colon s) = false.
Proof.
  induction s as [|c s IH]; simpl; [done|].
  destruct (Ascii.eqb c ":") eqn:Hc; simpl; [done|]. by rewrite Hc, IH.
Qed.

Lemma before_colon_keeps_free (c : ascii) (s : string) :
  has_char c s = false → has_char c (before_colon s) = false.
Proof.
  induction s as [|c' s IH]; simpl; [done|]. intros [Hc Hs]%orb_false_iff.
  destruct (Ascii.eqb c' ":"); simpl; [done|]. by rewrite Hc, IH.
Qed.

Lemma after_colon_None (s : string) : has_char ":" s = false → after_colon s = None.
Proof.
  induction s as [|c s IH]; simpl; [done|]. intros [Hc Hs]%orb_false_iff.
  by rewrite Hc, IH.
Qed.

Lemma after_colon_app (h p : string) :
  has_char ":" h = false → after_colon (h +:+ ":" +:+ p) = Some p.
Proof.
  induction h as [|c h IH]; simpl; [done|]. intros [Hc Hs]%orb_false_iff.
  by rewrite Hc, IH.
Qed.

Lemma has_char_app (c : ascii) (a b : string) :
  has_char c (a +:+ b) = has_char c a || has_char c b.
Proof. induction a as [|c' a IH]; simpl; [done|]. by rewrite IH, orb_assoc. Qed.

Lemma append_assoc (a b c : string) : (a +:+ b) +:+ c = a +:+ b +:+ c.
Proof.
  induction a as [|x a IH]; [done|].
  change (String x ((a +:+ b) +:+ c) = String x (a +:+ b +:+ c)). by rewrite IH.
Qed.

Lemma append_empty (s : string) : s +:+ EmptyString = s.
Proof.
  induction s as [|x s IH]; [done|].
  change (String x (s +:+ EmptyString) = String x s). by rewrite IH.
Qed.

(** The groups [url_match] finds. *)
Lemma url_match_accepts (https : bool) (host tail : string) :
  host ≠ EmptyString → has_char "/" host = false →
  tail = EmptyString ∨ (starts_with "/" tail = true ∧ dot_star_end tail = true) →
  url_match (scheme_of https +:+ "://" +:+ host +:+ tail) =
    Some (scheme_of https, host,
          match tail with EmptyString => None | _ => Some tail end).
Proof.
  intros Hne Hh Ht. unfold url_match.
  assert (Hstrip : match strip_prefix "https://" (scheme_of https +:+ "://" +:+ host +:+ tail) with
                   | Some rest => Some ("https", rest)
                   | None =>
                       match strip_prefix "http://" (scheme_of https +:+ "://" +:+ host +:+ tail) with
                       | Some rest => Some ("http", rest)
                       | None => None
                       end
                   end = Some (scheme_of https, host +:+ tail)).
  { destruct https; simpl; rewrite ?Ascii.eqb_refl; [by destruct (host +:+ tail)|].
    destruct host as [|c host]; [done|]. simpl in *.
    apply orb_false_iff in Hh as [Hc _].
    by destruct (host +:+ tail). }
  rewrite Hstrip. rewrite span_host_app; [|done|tauto].
  destruct host as [|c host]; [done|].
  destruct Ht as [->|[Hs ->]]; [done|]. by destruct tail.
Qed.

(** X11.  The URL fallback accepts scheme://host, then an optional colon
    and port, then an optional rest, for the scheme http or https, a
    non-empty host and a port without "/" and ":", and a rest that starts
    with "/" and holds no line terminator.  Its parts are the host, the port
    as text (or, without one, the default of the scheme as a number), and
    the rest, or "/" without one, as path; the query stays in the path. *)
Theorem manual_parse_accepts (https : bool) (h : string) (p : option string) (tail : string) :
  h ≠ EmptyString →
  has_char "/" h = false → has_char ":" h = false →
  (∀ q, p = Some q → has_char "/" q = false ∧ has_char ":" q = false) →
  tail = EmptyString ∨ (starts_with "/" tail = true ∧ dot_star_end tail = true) →
  manual_parse (scheme_of https +:+ "://" +:+ h
                +:+ match p with Some q => ":" +:+ q | None => EmptyString end
                +:+ tail) =
    Some {| protocol := scheme_of https +:+ ":";
            hostname := h;
            port := match p with
                    | Some q => VStr q
                    | None => VNum (default_port https)
                    end;
            pathname := match tail with EmptyString => "/" | _ => tail end;
            search := EmptyString |}.
Proof.
  intros Hne Hs Hc Hp Ht. unfold manual_parse.
  set (host := h +:+ match p with Some q => ":" +:+ q | None => EmptyString end).
  assert (Hhost : host ≠ EmptyString ∧ has_char "/" host = false).
  { unfold host. split; [by destruct h|]. destruct p as [q|].
    - destruct (Hp q eq_refl) as [Hq _]. by rewrite !has_char_app, Hs, Hq.
    - by rewrite append_empty. }
  destruct Hhost as [Hhne Hhs].
  replace (h +:+ match p with Some q => ":" +:+ q | None => EmptyString end +:+ tail)
    with (host +:+ tail).
  2: { unfold host. by rewrite append_assoc. }
  rewrite (url_match_accepts https host tail Hhne Hhs Ht).
  f_equal. unfold host. destruct p as [q|].
  - destruct (Hp q eq_refl) as [_ Hq].
    rewrite before_colon_app, after_colon_app, (before_colon_id q) by done.
    by destruct tail.
  - rewrite append_empty, before_colon_id, after_colon_None by done.
    destruct https, tail; done.
Qed.

(** What a match of [url_match] says about the URL. *)
Lemma url_match_sound (url scheme host : string) (path : option string) :
  url_match url = Some (scheme, host, path) →
  (scheme = "http" ∨ scheme = "https") ∧
  url = scheme +:+ "://" +:+ host +:+ default EmptyString path ∧
  host ≠ EmptyString ∧ has_char "/" host = false ∧
  (∀ tail, path = Some tail → starts_with "/" tail = true).
Proof.
  unfold url_match.
  assert (Hspan : ∀ sch rest,
            match span_host rest with
            | (EmptyString, _) => None
            | (h, EmptyString) => Some (sch, h, None)
            | (h, p) => if dot_star_end p then Some (sch, h, Some p) else None
            end = Some (scheme, host, path) →
            sch = scheme ∧ rest = host +:+ default EmptyString path ∧
            host ≠ EmptyString ∧ has_char "/" host = false ∧
            (∀ tail, path = Some tail → starts_with "/" tail = true)).
  { intros sch rest. destruct (span_host rest) as [h p] eqn:Hsp.
    apply span_host_spec in Hsp as (-> & Hh & Ht).
    destruct h as [|c h]; [done|]. destruct p as [|c' p].
    - intros [= <- <- <-]. repeat split; done.
    - destruct (dot_star_end (String c' p)); [|done]. intros [= <- <- <-].
      destruct Ht as [|Ht]; [done|]. repeat split; try done. by intros ? [= <-]. }
  destruct (strip_prefix "https://" url) as [rest|] eqn:Hs.
  - apply strip_prefix_Some in Hs as ->. intros Hm.
    destruct (Hspan _ _ Hm) as (<- & -> & ? & ? & ?). auto.
  - destruct (strip_prefix "http://" url) as [rest|] eqn:Hs'; [|done].
    apply strip_prefix_Some in Hs' as ->. intros Hm.
    destruct (Hspan _ _ Hm) as (<- & -> & ? & ? & ?). auto.
Qed.

(** X12.  What the fallback accepts is of that shape, and nothing of it is
    lost on the way to the request: the URL is the protocol, "//", a
    non-empty host part without "/" and a tail; the host name is the host
    part up to its first colon; the request path is the tail, or "/" for an
    empty tail, and starts with "/". *)
Theorem manual_parse_sound (url : string) (parsedUrl : ParsedUrl) :
  manual_parse url = Some parsedUrl →
  (protocol parsedUrl = "http:" ∨ protocol parsedUrl = "https:") ∧
  ∃ host tail,
    url = protocol parsedUrl +:+ "//" +:+ host +:+ tail ∧
    host ≠ EmptyString ∧ has_char "/" host = false ∧
    hostname parsedUrl = before_colon host ∧
    has_char "/" (hostname parsedUrl) = false ∧
    has_char ":" (hostname parsedUrl) = false ∧
    request_path parsedUrl = match tail with EmptyString => "/" | _ => tail end ∧
    starts_with "/" (request_path parsedUrl) = true.
Proof.
  unfold manual_parse.
  destruct (url_match url) as [[[scheme host] path]|] eqn:Hm; [|done].
  apply url_match_sound in Hm as (Hscheme & -> & Hne & Hh & Hpath).
  intros [= <-]. unfold request_path. cbn [protocol hostname pathname search].
  split; [destruct Hscheme as [-> | ->]; auto|].
  exists host, (default EmptyString path). rewrite append_empty.
  split; [by destruct Hscheme as [-> | ->]|].
  split; [done|]. split; [done|]. split; [done|].
  split; [by apply before_colon_keeps_free|].
  split; [apply before_colon_free|].
  destruct path as [tail|]; simpl; [|done].
  pose proof (Hpath tail eq_refl) as Ht.
  apply starts_with_slash in Ht as [s' ->]. done.
Qed.


End url_facts.

(** ** More on [src/script.mjs] *)

Section script_more_facts.
Context `{Platform}.

(** A [Script.invoke] whose trace grew by a request went through
    [makeWebhookRequest]. *)
Lemma script_invoke_request_inv params context t o url options answer :
  Script.invoke params context t = (o, t ++ [EvHttp url options answer]) →
  ∃ headers body,
    Script.invoke params context t =
      Script.makeWebhookRequest (get params "method") (get params "address")
        headers body (accepted_or_default params) t.
Proof.
  unfold Script.invoke. fold (accepted_or_default params).
  destruct (negb (truthy (get params "method")));
    [intros [= _ Ht]; by apply trace_grows_not in Ht|].
  destruct (negb (truthy (get params "address")));
    [intros [= _ Ht]; by apply trace_grows_not in Ht|].
  rewrite bind_run.
  match goal with
  | |- context [match ?c t with _ => _ end] =>
      assert (Hs : silent c) by silent_tac;
      destruct Hs as ([headers|e] & -> & _)
  end.
  2: { intros [= _ Ht]. by apply trace_grows_not in Ht. }
  intros _. rewrite bind_run.
  match goal with
  | |- context [Script.makeWebhookRequest ?me ?u ?h ?b ?a t] =>
      exists h, b; by destruct (Script.makeWebhookRequest me u h b a t) as [[r|e] t']
  end.
Qed.

(** [makeWebhookRequest] after a response. *)
Lemma makeWebhookRequest_resolved method url headers body accepted t o url' options
    response text :
  Script.makeWebhookRequest method url headers body accepted t =
    (o, t ++ [EvHttp url' options (Resolved response text)]) →
  o = match (if Script.response_ok response then Return true
             else (call_includes "acceptedStatusCodes"
                     match accepted with VUndefined => VArr [] | v => v end
                     (VNum (statusCode response)) []).1) with
      | Return success =>
          Return (script_result response text success
                    (now (t ++ [EvHttp url' options (Resolved response text)])))
      | Throw e => Throw e
      end.
Proof.
  unfold Script.makeWebhookRequest. rewrite bind_run.
  match goal with
  | |- context [match ?c t with _ => _ end] =>
      assert (Hs : silent c) by silent_tac;
      destruct Hs as ([b|e] & -> & _)
  end.
  2: { intros [= _ Ht]. by apply trace_grows_not in Ht. }
  unfold try_catch. rewrite bind_run. unfold Script.fetch.
  match goal with
  | |- context [http t url ?opts] =>
      destruct (http t url opts) as [e|response' text'] eqn:Hanswer
  end.
  { rewrite bind_run.
    destruct (silent_caught_message e) as ([?|?] & -> & _);
      intros [= _ Ht]; apply app_inj_tail in Ht as [_ Ht]; discriminate. }
  rewrite bind_run.
  destruct (Script.response_ok response') eqn:Hok.
  - cbv beta iota delta [mret M_ret mbind M_bind clock]. intros [= <- Ht].
    apply app_inj_tail in Ht as [_ [= <- <- <- <-]]. by rewrite Hok.
  - match goal with
    | |- context [call_includes ?w ?a ?x] =>
        destruct (silent_call_includes w a x) as ([b'|e] & Hs & He)
    end; rewrite !Hs.
    + cbv beta iota delta [mret M_ret mbind M_bind clock]. intros [= <- Ht].
      apply app_inj_tail in Ht as [_ [= <- <- <- <-]]. by rewrite Hok, Hs.
    + rewrite bind_run.
      destruct e as [name msg|]; [|done]. simpl.
      intros [= <- Ht].
      apply app_inj_tail in Ht as [_ [= <- <- <- <-]]. by rewrite Hok, Hs.
Qed.

(** [makeWebhookRequest] after a rejection by an [Error]. *)
Lemma makeWebhookRequest_rejected method url headers body accepted t o url' options
    name m :
  Script.makeWebhookRequest method url headers body accepted t =
    (o, t ++ [EvHttp url' options (Rejected (JsError name m))]) →
  o = Throw (JsError name m).
Proof.
  unfold Script.makeWebhookRequest. rewrite bind_run.
  match goal with
  | |- context [match ?c t with _ => _ end] =>
      assert (Hs : silent c) by silent_tac;
      destruct Hs as ([b|e] & -> & _)
  end.
  2: { intros [= _ Ht]. by apply trace_grows_not in Ht. }
  unfold try_catch. rewrite bind_run. unfold Script.fetch.
  match goal with
  | |- context [http t url ?opts] =>
      destruct (http t url opts) as [e|response' text'] eqn:Hanswer
  end.
  - rewrite bind_run.
    destruct e as [name' m'|v].
    + simpl. intros [= <- Ht]. by apply app_inj_tail in Ht as [_ [= <- <- <- <-]].
    + destruct (silent_caught_message (JsThrown v)) as ([?|?] & -> & _);
        intros [= _ Ht]; apply app_inj_tail in Ht as [_ Ht]; discriminate.
  - rewrite bind_run.
    match goal with
    | |- context [match ?c ?tt with _ => _ end] =>
        assert (Hs : silent c) by silent_tac;
        destruct Hs as ([b'|e] & -> & _)
    end.
    + cbv beta iota delta [mret M_ret mbind M_bind clock].
      intros [= _ Ht]. apply app_inj_tail in Ht as [_ Ht]. discriminate.
    + rewrite bind_run.
      destruct (silent_caught_message e) as ([?|?] & -> & _);
        intros [= _ Ht]; apply app_inj_tail in Ht as [_ Ht]; discriminate.
Qed.

(** X14.  In [src/script.mjs], an answered [invoke] returns the status
    code, the body and a boolean [success], true exactly when the code is
    200..299 or listed in [acceptedStatusCodes]; the result has no [status]
    and no [error] field. *)
Theorem script_invoke_classifies params context t o url options response body codes :
  Script.invoke params context t =
    (o, t ++ [EvHttp url options (Resolved response body)]) →
  accepted_codes params codes →
  ∃ r (success : bool), o = Return r ∧
    r !! "statusCode" = Some (VNum (statusCode response)) ∧
    r !! "body" = Some (VStr body) ∧
    r !! "success" = Some (VBool success) ∧
    (success = true ↔
       200 ≤ statusCode response < 300 ∨ VNum (statusCode response) ∈ codes) ∧
    r !! "status" = None ∧ r !! "error" = None.
Proof.
  intros Hrun Hcodes.
  destruct (script_invoke_request_inv _ _ _ _ _ _ _ Hrun) as (headers & body' & Hinv).
  rewrite Hinv in Hrun. apply makeWebhookRequest_resolved in Hrun.
  assert (Hacc : accepted_or_default params = VArr codes).
  { unfold accepted_or_default. by destruct Hcodes as [[-> ->] | ->]. }
  rewrite Hacc in Hrun. simpl in Hrun. unfold Script.response_ok in Hrun.
  set (c := statusCode response) in *.
  pose proof (array_includes_num codes c) as Hin.
  destruct ((200 <=? c) && (c <=? 299)) eqn:Hok; subst o.
  - eexists _, true. split; [reflexivity|]. unfold script_result.
    repeat (split; [by simplify_map_eq|]). split; [|by simplify_map_eq].
    apply andb_true_iff in Hok as [?%Z.leb_le ?%Z.leb_le].
    split; [intros _; left; lia | done].
  - eexists _, _. split; [reflexivity|]. unfold script_result.
    repeat (split; [by simplify_map_eq|]). split; [|by simplify_map_eq].
    rewrite Hin. split; [by right|]. intros [Hc|Hc]; [|done]. exfalso.
    apply andb_false_iff in Hok as [?%Z.leb_gt | ?%Z.leb_gt]; lia.
Qed.

(** X15.  In [src/script.mjs], a 2xx answer is a success whatever
    [acceptedStatusCodes] holds: the list is not looked at, so a value of
    the wrong type goes unnoticed. *)
Theorem script_invoke_ok_ignores_accepted params context t o url options response body :
  Script.invoke params context t =
    (o, t ++ [EvHttp url options (Resolved response body)]) →
  200 ≤ statusCode response ≤ 299 →
  ∃ r, o = Return r ∧ r !! "success" = Some (VBool true) ∧
       r !! "statusCode" = Some (VNum (statusCode response)).
Proof.
  intros Hrun Hc.
  destruct (script_invoke_request_inv _ _ _ _ _ _ _ Hrun) as (headers & body' & Hinv).
  rewrite Hinv in Hrun. apply makeWebhookRequest_resolved in Hrun.
  assert (Hok : Script.response_ok response = true).
  { unfold Script.response_ok. apply andb_true_iff. split; lia. }
  rewrite Hok in Hrun. subst o. eexists. split; [reflexivity|].
  unfold script_result. by simplify_map_eq.
Qed.

(** X16.  In [src/script.mjs], an Error that rejects the request is thrown
    by [invoke] as it is, name and message unchanged. *)
Theorem script_invoke_rethrows params context t o url options name m :
  Script.invoke params context t =
    (o, t ++ [EvHttp url options (Rejected (JsError name m))]) →
  o = Throw (JsError name m).
Proof.
  intros Hrun.
  destruct (script_invoke_request_inv _ _ _ _ _ _ _ Hrun) as (headers & body' & Hinv).
  rewrite Hinv in Hrun. by apply makeWebhookRequest_rejected in Hrun.
Qed.

(** X17.  In [src/script.mjs], a non-empty string [requestHeaders] that is
    not JSON text makes [invoke] throw "Invalid JSON in requestHeaders: "
    followed by the parser's message, before any request. *)
Theorem script_invoke_rejects_headers params context s msg t :
  truthy (get params "method") = true →
  truthy (get params "address") = true →
  get params "requestHeaders" = VStr s → s ≠ EmptyString →
  JSON_parse s = inl msg →
  Script.invoke params context t =
    (Throw (Error ("Invalid JSON in requestHeaders: " +:+ msg)), t).
Proof.
  intros Hm Ha Hh Hs Hp. apply truthy_str in Hs.
  unfold Script.invoke. by rewrite Hm, Ha, Hh, Hs, Hp.
Qed.

(** [Script.error] always throws, and throws the very value it was given
    when that value carries a message it can search. *)
Lemma script_error_throws params context t :
  ∃ e, Script.error params context t = (Throw e, t) ∧
       (has_text_message (get params "error") → e = JsThrown (get params "error")).
Proof.
  unfold Script.error.
  assert (Hs : ∀ x, silent (Script.optional_message_includes (get params "error") x)).
  { intros x. unfold Script.optional_message_includes. silent_tac. }
  assert (Ht : has_text_message (get params "error") →
               ∀ x, ∃ b, Script.optional_message_includes (get params "error") x
                         = mret (VBool b)).
  { intros (err & message & -> & Hm & [[s ->] | [l ->]]) x;
      unfold Script.optional_message_includes; rewrite Hm; simpl; eauto. }
  assert (Hno : ∀ x e, has_text_message (get params "error") →
                (∀ t', Script.optional_message_includes (get params "error") x t'
                       = (Throw e, t')) → False).
  { intros x e Hh He. destruct (Ht Hh x) as [b Hb]. rewrite Hb in He.
    specialize (He []). discriminate. }
  unfold mbind, M_bind, mret, M_ret, throw.
  destruct (Hs "fetch") as ([v1|e1] & H1 & _);
    destruct (Hs "network") as ([v2|e2] & H2 & _);
    destruct (Hs "timeout") as ([v3|e3] & H3 & _);
    rewrite ?H1, ?H2, ?H3;
    repeat (match goal with
            | |- context [if truthy ?v then _ else _] => destruct (truthy v)
            end; rewrite ?H1, ?H2, ?H3);
    eexists; (split; [reflexivity|]); intros Hh; try done;
    exfalso; eauto.
Qed.

(** X18.  The error handler of [src/script.mjs] recovers nothing: it never
    returns and has no effect, whatever it is given; given an error object
    with a message to search, it throws that very object. *)
Theorem script_error_never_recovers params context t :
  (∀ r t', Script.error params context t ≠ (Return r, t')) ∧
  (Script.error params context t).2 = t ∧
  (has_text_message (get params "error") →
   Script.error params context t = (Throw (JsThrown (get params "error")), t)).
Proof.
  destruct (script_error_throws params context t) as (e & He & Hsame).
  rewrite He. split; [done|]. split; [done|]. intros Hm. by rewrite (Hsame Hm).
Qed.

(** [makeWebhookRequest] either throws before the request, whatever the
    headers, or makes one request, with the options [script_options]. *)
Lemma makeWebhookRequest_cases method url body accepted t :
  (∃ e, is_error e ∧ ∀ headers,
     Script.makeWebhookRequest method url headers body accepted t = (Throw e, t)) ∨
  (∀ headers, ∃ o,
     Script.makeWebhookRequest method url headers body accepted t =
       (o, t ++ [EvHttp url (script_options method headers body)
                   (http t url (script_options method headers body))])).
Proof.
  unfold Script.makeWebhookRequest.
  set (body' := match body with VUndefined => VNull | v => v end).
  assert (Hbody : truthy body' = truthy body ∧ (truthy body = true → body' = body))
    by (by destruct body).
  destruct Hbody as [Htr Hsame]. rewrite Htr.
  assert (Hsend : ∀ opts, ∃ o',
            try_catch
              ('(response, responseBody) ← Script.fetch url opts;
               isSuccess ←
                 (if Script.response_ok response then mret true
                  else call_includes "acceptedStatusCodes"
                         match accepted with VUndefined => VArr [] | v => v end
                         (VNum (statusCode response)));
               executedAt ← clock;
               mret ({[ "statusCode" := VNum (statusCode response);
                        "body" := VStr responseBody;
                        "success" := VBool isSuccess;
                        "executedAt" := VStr executedAt ]} : gmap string value))
              (λ error, _ ← caught_message error; throw error) t =
            (o', t ++ [EvHttp url opts (http t url opts)])).
  { intros opts. unfold try_catch. rewrite bind_run. unfold Script.fetch.
    destruct (http t url opts) as [e|response text].
    { rewrite bind_run.
      destruct (silent_caught_message e) as ([?|?] & -> & _); eauto. }
    rewrite bind_run.
    match goal with
    | |- context [match ?c ?tt with _ => _ end] =>
        assert (Hs : silent c) by silent_tac;
        destruct Hs as ([b'|e] & -> & _)
    end; [eauto|].
    rewrite bind_run.
    destruct (silent_caught_message e) as ([?|?] & -> & _); eauto. }
  assert (Hopt : ∀ h, truthy body = true ∨ script_attaches method body = false →
            (if script_attaches method body
             then with_headers (with_body
                    {| ro_method := method; ro_headers := own_properties h;
                       ro_body := VUndefined |} body')
                    (with_default_content_type h)
             else {| ro_method := method; ro_headers := own_properties h;
                     ro_body := VUndefined |})
            = script_options method h body).
  { intros h Hb. unfold script_options.
    destruct (script_attaches method body) eqn:Ha; [|done].
    unfold script_attaches in Ha. apply andb_true_iff in Ha as [Ht _].
    by rewrite (Hsame Ht). }
  assert (Hstage : (∃ e, is_error e ∧ ∀ t', (if truthy body
                      then METHOD ← call_toUpperCase "method" method;
                           mret (array_includes
                                   [VStr "POST"; VStr "PUT"; VStr "PATCH"; VStr "DELETE"]
                                   (VStr METHOD))
                      else mret false) t' = (Throw e, t')) ∨
                   (∀ t', (if truthy body
                      then METHOD ← call_toUpperCase "method" method;
                           mret (array_includes
                                   [VStr "POST"; VStr "PUT"; VStr "PATCH"; VStr "DELETE"]
                                   (VStr METHOD))
                      else mret false) t' = (Return (script_attaches method body), t'))).
  { unfold script_attaches. destruct (truthy body); [|by right].
    destruct method; simpl; try (by right);
      left; eexists; (split; [|intros; reflexivity]); done. }
  destruct Hstage as [(e & Herr & He) | Hst].
  { left. exists e. split; [done|]. intros headers. by rewrite bind_run, He. }
  right. intros headers. rewrite bind_run, Hst. cbv beta iota.
  assert (Hb : truthy body = true ∨ script_attaches method body = false).
  { unfold script_attaches. destruct (truthy body); auto. }
  fold (with_default_content_type headers). rewrite (Hopt headers Hb).
  apply Hsend.
Qed.

(** The request of a [makeWebhookRequest] that made one; whether it makes
    one does not depend on the headers. *)
Lemma makeWebhookRequest_request_inv method url headers body accepted t o url' options
    answer :
  Script.makeWebhookRequest method url headers body accepted t =
    (o, t ++ [EvHttp url' options answer]) →
  url' = url ∧ options = script_options method headers body ∧
  answer = http t url options ∧
  ∀ headers', ∃ o',
    Script.makeWebhookRequest method url headers' body accepted t =
      (o', t ++ [EvHttp url (script_options method headers' body)
                   (http t url (script_options method headers' body))]).
Proof.
  intros Hrun.
  destruct (makeWebhookRequest_cases method url body accepted t)
    as [(e & _ & He) | Hsends].
  { rewrite He in Hrun. injection Hrun as _ Ht. by apply trace_grows_not in Ht. }
  destruct (Hsends headers) as [o1 Ho1]. rewrite Ho1 in Hrun.
  injection Hrun as _ Ht. apply app_inj_tail in Ht as [_ [= -> -> ->]].
  by repeat split.
Qed.

(** [Script.invoke] either throws during validation, whatever the secrets,
    or calls [makeWebhookRequest]; the secrets enter through the headers it
    passes on. *)
Lemma script_invoke_cases params t :
  (∃ e, is_error e ∧ ∀ context, Script.invoke params context t = (Throw e, t)) ∨
  (∃ customHeaders,
    script_headers (get params "requestHeaders") customHeaders ∧
    ∀ context,
      Script.invoke params context t =
        Script.makeWebhookRequest (get params "method") (get params "address")
          (script_header_object context customHeaders)
          (script_body (get params "requestBody"))
          (accepted_or_default params) t).
Proof.
  unfold Script.invoke. fold (accepted_or_default params).
  fold (script_body (get params "requestBody")).
  destruct (negb (truthy (get params "method")));
    [left; eexists; (split; [|intros; reflexivity]); done|].
  destruct (negb (truthy (get params "address")));
    [left; eexists; (split; [|intros; reflexivity]); done|].
  set (initial := {| own_properties :=
                       {[ "User-Agent" := VStr "sgnl-generic-webhook/1.0.0" ]};
                     prototype := None |}).
  match goal with
  | |- context [?c ≫= _] =>
      assert (Hstage :
        (∃ m, ∀ t', c t' =
                (Throw (Error ("Invalid JSON in requestHeaders: " +:+ m)), t')) ∨
        (∃ customHeaders,
           script_headers (get params "requestHeaders") customHeaders ∧
           ∀ t', c t' = (Return (assign initial customHeaders), t')))
  end.
  { destruct (truthy (get params "requestHeaders")) eqn:Hh.
    2: { right. exists VUndefined. split; [by apply SH_absent | done]. }
    destruct (get params "requestHeaders") as [| | | |s| |] eqn:Hv;
      try (right; eexists; split; [by apply SH_as_is | done]).
    simpl. destruct (JSON_parse s) as [m|customHeaders] eqn:Hp.
    - left. by exists m.
    - right. exists customHeaders. split; [|done].
      apply SH_parsed; [by apply truthy_str | done]. }
  destruct Hstage as [(m & Hs) | (customHeaders & Hsh & Hs)].
  { left. eexists. split; [|intros context; by rewrite bind_run, Hs]. done. }
  right. exists customHeaders. split; [done|].
  intros context. rewrite bind_run, Hs, bind_run.
  fold (authenticated context (assign initial customHeaders)).
  fold (script_header_object context customHeaders).
  by destruct (Script.makeWebhookRequest _ _ _ _ _ t) as [[r|e] t'].
Qed.

Lemma script_invoke_secrets params context t o url options answer :
  Script.invoke params context t = (o, t ++ [EvHttp url options answer]) →
  ∃ customHeaders,
    script_headers (get params "requestHeaders") customHeaders ∧
    ∀ context',
      Script.invoke params context' t =
        Script.makeWebhookRequest (get params "method") (get params "address")
          (script_header_object context' customHeaders)
          (script_body (get params "requestBody"))
          (accepted_or_default params) t.
Proof.
  intros Hrun. destruct (script_invoke_cases params t) as [(e & _ & He)|Hc]; [|done].
  rewrite He in Hrun. injection Hrun as _ Ht. by apply trace_grows_not in Ht.
Qed.

(** A header written under another name than Content-Type does not change
    what the Content-Type rule decides. *)
Lemma script_options_insert method (headers : HeaderObject) body (k : string) v :
  k ≠ "Content-Type" → k ≠ "content-type" →
  ro_headers (script_options method
                {| own_properties := <[k := v]> (own_properties headers);
                   prototype := prototype headers |} body) =
  <[k := v]> (ro_headers (script_options method headers body)).
Proof.
  intros H1 H2. unfold script_options, with_default_content_type, read_header.
  cbn [own_properties prototype]. rewrite !lookup_insert_ne by done.
  destruct (script_attaches method body); [|done]. cbn [ro_headers].
  destruct (_ && _); [|done]. by apply insert_insert_ne.
Qed.

Lemma script_options_with_headers method (h1 h2 : HeaderObject) body :
  with_headers (script_options method h1 body)
    (ro_headers (script_options method h2 body)) = script_options method h2 body.
Proof. unfold script_options. by destruct (script_attaches method body). Qed.

(** X19.  Authentication in [src/script.mjs]: the headers of an issued
    request are those of the same call made without secrets, plus the one
    header of the first truthy secret among AUTHORIZATION_HEADER
    (Authorization), API_KEY (X-API-Key) and BEARER_TOKEN (Authorization,
    "Bearer " and the token). *)
Theorem script_authentication_first_match params context t o url options answer :
  Script.invoke params context t = (o, t ++ [EvHttp url options answer]) →
  ∃ headers,
    (∃ o' answer',
       Script.invoke params (without_secrets context) t =
         (o', t ++ [EvHttp url (with_headers options headers) answer'])) ∧
    let secret := get (secrets context) in
    if truthy (secret "AUTHORIZATION_HEADER") then
      ro_headers options = <["Authorization" := secret "AUTHORIZATION_HEADER"]> headers
    else if truthy (secret "API_KEY") then
      ro_headers options = <["X-API-Key" := secret "API_KEY"]> headers
    else if truthy (secret "BEARER_TOKEN") then
      ro_headers options =
        <["Authorization" := VStr ("Bearer " +:+ ToString (secret "BEARER_TOKEN"))]>
          headers
    else ro_headers options = headers.
Proof.
  intros Hrun.
  destruct (script_invoke_secrets _ _ _ _ _ _ _ Hrun) as (custom & _ & Hinv).
  rewrite (Hinv context) in Hrun.
  apply makeWebhookRequest_request_inv in Hrun as (-> & -> & _ & Hother).
  set (body := script_body (get params "requestBody")).
  set (plain := script_header_object (without_secrets context) custom).
  exists (ro_headers (script_options (get params "method") plain body)). split.
  { destruct (Hother plain) as [o' Ho']. rewrite (Hinv (without_secrets context)).
    rewrite script_options_with_headers. eauto. }
  simpl. unfold script_header_object, authenticated, Script.apply_authentication.
  repeat case_match;
    by rewrite ?(script_options_insert _ plain).
Qed.

(** X20.  Body and Content-Type in [src/script.mjs], for the header object
    [invoke] has built from the custom headers and the secrets: the issued
    request has a body only when the method is a string that the host
    upper-cases to POST, PUT, PATCH or DELETE, and then a truthy one;
    Content-Type "application/json" is added exactly when a body is attached
    and neither [headers['Content-Type']] nor [headers['content-type']]
    reads truthy, an inherited value included; every other header sent is
    an own property of the header object, unchanged. *)
Theorem script_content_type_rule params context t o url options answer :
  Script.invoke params context t = (o, t ++ [EvHttp url options answer]) →
  ∃ customHeaders,
    script_headers (get params "requestHeaders") customHeaders ∧
    let headers := script_header_object context customHeaders in
    (ro_body options = VUndefined ∨
     (truthy (ro_body options) = true ∧
      ro_body options = script_body (get params "requestBody") ∧
      ∃ m, get params "method" = VStr m ∧ supports_body m = true)) ∧
    (∀ k, k ≠ "Content-Type" →
       ro_headers options !! k = own_properties headers !! k) ∧
    ro_headers options !! "Content-Type" =
      if truthy (ro_body options)
         && negb (truthy (read_header headers "Content-Type"))
         && negb (truthy (read_header headers "content-type"))
      then Some (VStr "application/json")
      else own_properties headers !! "Content-Type".
Proof.
  intros Hrun.
  destruct (script_invoke_secrets _ _ _ _ _ _ _ Hrun) as (custom & Hsh & Hinv).
  rewrite (Hinv context) in Hrun.
  apply makeWebhookRequest_request_inv in Hrun as (-> & -> & _ & _).
  exists custom. split; [done|].
  set (headers := script_header_object context custom).
  set (body := script_body (get params "requestBody")).
  cbv zeta. unfold script_options, script_attaches.
  destruct (truthy body) eqn:Hb; simpl.
  2: { split; [by left|]. split; done. }
  destruct (get params "method") as [| | | |m| |] eqn:Hm; simpl;
    try (split; [by left|]; split; done).
  destruct (supports_body m) eqn:Hs; simpl.
  2: { split; [by left|]. split; done. }
  rewrite Hb. split; [right; eauto|].
  unfold with_default_content_type. simpl. split.
  - intros k Hk. case_match; [by rewrite lookup_insert_ne | done].
  - case_match; [by rewrite lookup_insert_eq | done].
Qed.

(** X21.  The effects of the three handlers of [src/script.mjs], for every
    input: [invoke] issues no request or exactly one; [error] and [halt]
    have none. *)
Theorem script_effects_bound params context t :
  ((Script.invoke params context t).2 = t ∨
   ∃ url options,
     (Script.invoke params context t).2 = t ++ [EvHttp url options (http t url options)]) ∧
  (Script.error params context t).2 = t ∧
  (Script.halt params context t).2 = t.
Proof.
  split; [|split].
  - destruct (script_invoke_cases params t) as [(e & _ & He)|(h & _ & Hc)].
    { left. by rewrite He. }
    rewrite Hc.
    destruct (makeWebhookRequest_cases (get params "method") (get params "address")
                (script_body (get params "requestBody"))
                (accepted_or_default params) t) as [(e & _ & He)|Hs].
    { left. by rewrite He. }
    right. destruct (Hs (script_header_object context h)) as [o ->]. eauto.
  - destruct (script_error_throws params context t) as (e & -> & _). done.
  - reflexivity.
Qed.

End script_more_facts.

(** ** [scripts/dev-runner.mjs] *)

Section runner_facts.
Context `{Platform}.

(** X22.  The development runner never reports a successful recovery:
    when the job returns, it reports the result; when the job throws an
    Error, the error handler throws it back and the runner reports the
    failed recovery with the message of the original error. *)
Theorem runDev_never_recovers params context t :
  (∀ recovery, (DevRunner.runDev_with params context t).1
               ≠ Return (DevRunner.RecoverySuccessful recovery)) ∧
  (∀ r t', Script.invoke params context t = (Return r, t') →
     DevRunner.runDev_with params context t = (Return (DevRunner.JobCompleted r), t')) ∧
  (∀ name m t', Script.invoke params context t = (Throw (JsError name m), t') →
     DevRunner.runDev_with params context t =
       (Return (DevRunner.RecoveryFailed (VStr m)), t')).
Proof.
  assert (Herr : ∀ p t', ∃ e, Script.error p context t' = (Throw e, t') ∧
                   (has_text_message (get p "error") → e = JsThrown (get p "error"))).
  { intros p t'. apply script_error_throws. }
  unfold DevRunner.runDev_with, try_catch. rewrite bind_run.
  destruct (Script.invoke params context t) as [[r|e] t'] eqn:Hinv.
  { split; [done|]. split; [by intros ?? [= <- <-]|]. intros ??? [=]. }
  split; [|split; [intros ?? [=]|]].
  - intros recovery. rewrite bind_run.
    destruct (DevRunner.caught_message_value e t') as [[v|e'] t''] eqn:Hmsg; [|done].
    rewrite bind_run.
    destruct (Herr (<["error" := DevRunner.caught_value e]> params) t'')
      as (e2 & -> & _).
    rewrite bind_run.
    by destruct (DevRunner.caught_message_value e2 t'') as [[v'|e''] t3].
  - intros name m t'' [= -> <-]. simpl. rewrite bind_ret, bind_run.
    destruct (Herr (<["error" := VObj [("message", VStr m)]]> params) t')
      as (e2 & -> & He2).
    rewrite get_insert_eq in He2. rewrite He2; [done|].
    eexists _, _. split; [done|]. split; [done|]. eauto.
Qed.

End runner_facts.

(** ** Examples on the reference platform *)

(** [Object.assign] on the sources JSON text can give: a [__proto__] key
    makes no own property (an object under it becomes the prototype), and a
    string is copied one UTF-16 code unit at a time. *)
Example Object_assign_examples :
  Object_assign {[ "User-Agent" := VStr "ua" ]}
    (VObj [("__proto__", VObj [("content-type", VStr "text/plain")]);
           ("X-Custom", VStr "value")]) =
    {[ "User-Agent" := VStr "ua"; "X-Custom" := VStr "value" ]} ∧
  assigned_prototype
    (VObj [("__proto__", VObj [("content-type", VStr "text/plain")]);
           ("X-Custom", VStr "value")]) =
    Some (VObj [("content-type", VStr "text/plain")]) ∧
  assigned_prototype (VObj [("__proto__", VStr "x")]) = None ∧
  Object_assign ∅ (VStr "é") = {[ "0" := VStr "é" ]} ∧
  length (code_units "😀") = 2%nat.
Proof. repeat split; reflexivity. Qed.

Lemma invoke_classifies_status_witness :
  let P := Ref.platform [Ref.responds 500 "Internal Server Error"] in
  let params : gmap string value :=
    {[ "method" := VStr "POST";
       "address" := VStr "https://api.example.com";
       "requestBody" := VStr (Ref.json "{'test': true}") ]} in
  ∃ r, (@Dist.invoke P params test_context []).1 = Return r ∧
       r !! "status" = Some (VStr "http_error") ∧
       r !! "error" = Some (VStr "HTTP request failed with status 500").
Proof.
  intros P params.
  destruct (@invoke_classifies_status P params test_context []
              (@Dist.invoke P params test_context []).1
              (VStr "https://api.example.com")
              {| ro_method := VStr "POST";
                 ro_headers :=
                   {[ "User-Agent" := VStr "sgnl-generic-webhook/1.0.0";
                      "Content-Type" := VStr "application/json";
                      "X-API-Key" := VStr "test-api-key-123456" ]};
                 ro_body := VStr (Ref.json "{'test': true}") |}
              {| statusCode := 500; response_headers := VObj [] |}
              "Internal Server Error" [])
    as (r & Hr & _ & _ & Herr).
  - reflexivity.
  - left. split; reflexivity.
  - exists r. split; [exact Hr|]. apply Herr.
    intros [[_ Hlt] | Hin]; [simpl in Hlt; lia | inversion Hin].
Defined.

Lemma error_dispatch_witness :
  let P := Ref.platform [] in
  let params : gmap string value :=
    {[ "method" := VStr "GET";
       "address" := VStr "https://api.example.com";
       "error" := VObj [("message", VStr "Request timeout - DNS lookup took too long")] ]} in
  ∃ r, @Dist.error P params test_context [] = (Return r, []) ∧
       r !! "status" = Some (VStr "timeout_error") ∧
       r !! "recovery_method" = Some (VStr "timeout_handling").
Proof.
  intros P params.
  apply (@error_dispatch P params test_context
           [("message", VStr "Request timeout - DNS lookup took too long")]
           "Request timeout - DNS lookup took too long" []);
    reflexivity.
Defined.

(** The patterns are matched as written: a lower-case "dns" is not "DNS". *)
Example error_dispatch_is_case_sensitive :
  @Dist.error (Ref.platform [])
    {[ "method" := VStr "GET";
       "address" := VStr "https://api.example.com";
       "error" := VObj [("message", VStr "dns lookup failed")] ]}
    test_context [] =
  (Throw (Error "Unrecoverable webhook error: dns lookup failed"), []).
Proof. reflexivity. Qed.

Lemma error_retries_once_witness :
  let P := Ref.platform [Ref.responds 200 "ok"] in
  let params : gmap string value :=
    {[ "method" := VStr "GET";
       "address" := VStr "https://api.example.com";
       "error" := VObj [("message", VStr "HTTP 429 Too Many Requests")] ]} in
  (∃ r, (@Dist.error P params test_context []).1 = Return r ∧
        r !! "status" = Some (VStr "success") ∧
        http_count (@Dist.error P params test_context []).2 = 1%nat) ∧
  @Dist.error_with P (fun given _ => mret given) params test_context [] =
    (Return {[ "method" := VStr "GET";
               "address" := VStr "https://api.example.com" ]}, [EvSleep 5000]).
Proof.
  intros P params.
  destruct (@error_retries_once P params test_context
              [("message", VStr "HTTP 429 Too Many Requests")]
              "HTTP 429 Too Many Requests" [])
    as (_ & _ & Hretry & o & t1 & Hinv & _ & Ho); [reflexivity..|].
  split.
  - pose proof (f_equal fst Hinv) as Hfst. hnf in Hfst.
    destruct o as [r|e]; [|discriminate].
    injection Hfst as <-. rewrite Ho.
    eexists. split; [reflexivity|]. split; [reflexivity|].
    pose proof (f_equal snd Hinv) as <-. reflexivity.
  - etrans.
    + apply (Hretry (fun given _ => mret given)
               (Return (delete "error" params)) [EvSleep 5000]).
      reflexivity.
    + reflexivity.
Defined.

Lemma invoke_joins_suffix_witness :
  let P := Ref.platform [Ref.responds 200 "[]"] in
  let params : gmap string value :=
    {[ "method" := VStr "GET";
       "address" := VStr "https://api.example.com/";
       "addressSuffix" := VStr "/users" ]} in
  ∃ o options answer,
    @Dist.invoke P params test_context [] =
      (o, [EvHttp (VStr "https://api.example.com/users") options answer]).
Proof.
  intros P params.
  destruct (@invoke_joins_suffix P params test_context
              "GET" "https://api.example.com/" "/users" [])
    as (base & suffix & Hbase & Hsuffix & Hcases); [done..|].
  apply replace_trailing_slash_spec in Hbase as ->.
  apply replace_leading_slash_spec in Hsuffix as ->.
  destruct Hcases as [[msg Hc] | [[msg Hc] | (o & options & Ho & _)]].
  - apply (f_equal (λ x, length x.2)) in Hc. vm_compute in Hc. discriminate.
  - apply (f_equal (λ x, length x.2)) in Hc. vm_compute in Hc. discriminate.
  - eexists o, options, _. exact Ho.
Defined.

Lemma invalid_json_rejected_witness :
  let P := Ref.platform [] in
  let params : gmap string value :=
    {[ "method" := VStr "POST";
       "address" := VStr "https://api.example.com";
       "requestBody" := VStr (Ref.json "{'invalid': json}") ]} in
  @Dist.invoke P params test_context [] =
    (Throw (Error "Invalid JSON in requestBody: Unexpected token in JSON"), []).
Proof.
  intros P params.
  destruct (@invalid_json_rejected P params test_context
              "POST" "https://api.example.com" []) as [Hbody _].
  { split; [reflexivity | done | reflexivity | done | by left]. }
  apply (Hbody (Ref.json "{'invalid': json}")); [reflexivity | done | reflexivity].
Defined.

Lemma invoke_body_and_content_type_witness :
  let P := Ref.platform [Ref.responds 200 "ok"] in
  let params : gmap string value :=
    {[ "method" := VStr "GET";
       "address" := VStr "https://api.example.com";
       "requestBody" := VStr (Ref.json "{'a':1}");
       "requestHeaders" := VStr (Ref.json "{'X-Custom':'value'}") ]} in
  ∃ o url options,
    @Dist.invoke P params test_context [] =
      (o, [] ++ [EvHttp url options (@http P [] url options)]) ∧
    Dist.written_body options = Some (VStr (Ref.json "{'a':1}")) ∧
    ro_headers options !! "Content-Type" = Some (VStr "application/json").
Proof.
  intros P params.
  apply (@invoke_body_and_content_type P params test_context
           "GET" "https://api.example.com" (Ref.json "{'a':1}")
           (VObj [("a", VNum 1)]) (VObj [("X-Custom", VStr "value")]) []).
  - split; [reflexivity | done | reflexivity | done | by left].
  - reflexivity.
  - done.
  - reflexivity.
  - by apply Parsed.
Defined.

Lemma authentication_first_match_witness :
  let P := Ref.platform [Ref.responds 200 "ok"] in
  let context :=
    Ref.context ∅ {[ "API_KEY" := VStr "key-1"; "BEARER_TOKEN" := VStr "token-2" ]}
      VUndefined in
  let params : gmap string value :=
    {[ "method" := VStr "GET"; "address" := VStr "https://api.example.com" ]} in
  let options :=
    {| ro_method := VStr "GET";
       ro_headers := {[ "User-Agent" := VStr "sgnl-generic-webhook/1.0.0";
                        "X-API-Key" := VStr "key-1" ]};
       ro_body := VUndefined |} in
  (@Dist.invoke P params context []).2 =
    [EvHttp (VStr "https://api.example.com") options (Ref.responds 200 "ok")] ∧
  ro_headers options !! "X-API-Key" = Some (VStr "key-1") ∧
  ro_headers options !! "Authorization" = None.
Proof.
  intros P context params options.
  destruct (@authentication_first_match P params context []
              (@Dist.invoke P params context []).1
              (VStr "https://api.example.com") options (Ref.responds 200 "ok"))
    as (headers & _ & _ & Hkey); [reflexivity|].
  destruct Hkey as [Hx _]; [reflexivity..|].
  split; [reflexivity|]. split; [exact Hx | reflexivity].
Defined.

Lemma script_invoke_accepts_witness :
  let P := Ref.platform [Ref.responds 200 "ok"] in
  let params : gmap string value :=
    {[ "method" := VStr "post";
       "address" := VStr "https://api.example.com";
       "requestBody" := VObj [("a", VNum 1)];
       "requestHeaders" := VObj [("X-Custom", VStr "value")] ]} in
  ∃ o options,
    @Script.invoke P params test_context [] =
      (o, [EvHttp (VStr "https://api.example.com") options
             (Ref.responds 200 "ok")]) ∧
    ro_body options = VStr (Ref.json "{'a':1}") ∧
    ro_headers options !! "X-Custom" = Some (VStr "value").
Proof.
  intros P params.
  destruct (@script_invoke_accepts P params test_context "post"
              (VObj [("X-Custom", VStr "value")]) [])
    as (o & options & Ho & _ & Hbody & Hheaders).
  - reflexivity.
  - done.
  - reflexivity.
  - by apply SH_as_is.
  - exists o, options. split; [exact Ho|]. split; [exact Hbody|].
    by apply Hheaders.
Defined.

Lemma invoke_method_case_witness :
  let P := Ref.platform [Ref.responds 200 "ok"] in
  let params : gmap string value :=
    {[ "method" := VStr "post"; "address" := VStr "https://api.example.com" ]} in
  @Dist.invoke P (<["method" := VStr "Post"]> params) test_context [] =
  @Dist.invoke P params test_context [].
Proof.
  intros P params.
  apply (@invoke_method_case P params test_context "post" "Post" []);
    (reflexivity || done).
Defined.

Lemma invoke_wraps_transport_failure_witness :
  let P := Ref.platform [] in
  let params : gmap string value :=
    {[ "method" := VStr "GET"; "address" := VStr "https://api.example.com" ]} in
  (@Dist.invoke P params test_context []).1 =
    Throw (Error "HTTP request failed: connect ECONNREFUSED 127.0.0.1:443").
Proof.
  intros P params.
  apply (@invoke_wraps_transport_failure P params test_context []
           (@Dist.invoke P params test_context []).1
           (VStr "https://api.example.com")
           {| ro_method := VStr "GET";
              ro_headers :=
                {[ "User-Agent" := VStr "sgnl-generic-webhook/1.0.0";
                   "X-API-Key" := VStr "test-api-key-123456" ]};
              ro_body := VUndefined |}
           "Error" "connect ECONNREFUSED 127.0.0.1:443").
  reflexivity.
Defined.

Lemma error_after_transport_failure_witness :
  let P := Ref.platform [] in
  let message := "HTTP request failed: getaddrinfo ENOTFOUND api.example.com" in
  let params : gmap string value :=
    {[ "method" := VStr "GET";
       "address" := VStr "https://api.example.com";
       "error" := VObj [("message", VStr message)] ]} in
  ∃ r, @Dist.error P params test_context [] = (Return r, []) ∧
       r !! "status" = Some (VStr "dns_error") ∧
       r !! "original_error" = Some (VStr message).
Proof.
  intros P message params.
  exact (@error_after_transport_failure P params test_context
           [("message", VStr message)] "getaddrinfo ENOTFOUND api.example.com" []
           eq_refl eq_refl).
Defined.

Lemma invoke_throws_after_response_witness :
  let P := Ref.platform [Ref.responds 200 "ok"] in
  let params : gmap string value :=
    {[ "method" := VStr "GET";
       "address" := VStr "https://api.example.com";
       "acceptedStatusCodes" := VNum 404 ]} in
  ∃ msg, (@Dist.invoke P params test_context []).1 = Throw (TypeError msg).
Proof.
  intros P params.
  apply (@invoke_throws_after_response P params test_context []
           (@Dist.invoke P params test_context []).1
           (VStr "https://api.example.com")
           {| ro_method := VStr "GET";
              ro_headers :=
                {[ "User-Agent" := VStr "sgnl-generic-webhook/1.0.0";
                   "X-API-Key" := VStr "test-api-key-123456" ]};
              ro_body := VUndefined |}
           {| statusCode := 200; response_headers := VObj [] |} "ok").
  - reflexivity.
  - exact I.
Defined.

Lemma invoke_accepts_by_substring_witness :
  let P := Ref.platform [Ref.responds 410 "Gone"] in
  let params : gmap string value :=
    {[ "method" := VStr "GET";
       "address" := VStr "https://api.example.com";
       "acceptedStatusCodes" := VStr "404,410" ]} in
  ∃ r, (@Dist.invoke P params test_context []).1 = Return r ∧
       r !! "status" = Some (VStr "success").
Proof.
  intros P params.
  destruct (@invoke_accepts_by_substring P params test_context []
              (@Dist.invoke P params test_context []).1
              (VStr "https://api.example.com")
              {| ro_method := VStr "GET";
                 ro_headers :=
                   {[ "User-Agent" := VStr "sgnl-generic-webhook/1.0.0";
                      "X-API-Key" := VStr "test-api-key-123456" ]};
                 ro_body := VUndefined |}
              {| statusCode := 410; response_headers := VObj [] |} "Gone" "404,410")
    as (r & Hr & Hiff & _).
  - reflexivity.
  - reflexivity.
  - exists r. split; [exact Hr|]. apply Hiff. right.
    exists "404,", EmptyString. reflexivity.
Defined.

Lemma error_needs_message_witness :
  let P := Ref.platform [Ref.responds 200 "ok"] in
  let params : gmap string value :=
    {[ "method" := VStr "GET";
       "address" := VStr "https://api.example.com";
       "error" := VStr "rate limit exceeded" ]} in
  ∃ msg, @Dist.error P params test_context [] = (Throw (TypeError msg), []).
Proof.
  intros P params.
  apply (@error_needs_message P params test_context []).
  intros (err & message & Herr & _). discriminate Herr.
Defined.

Lemma error_retry_classifies_witness :
  let P := Ref.platform [Ref.responds 503 "busy"] in
  let params : gmap string value :=
    {[ "method" := VStr "GET";
       "address" := VStr "https://api.example.com";
       "error" := VObj [("message", VStr "rate limit exceeded")] ]} in
  ∃ r, (@Dist.error P params test_context []).1 = Return r ∧
       r !! "status_code" = Some (VNum 503) ∧
       r !! "status" = Some (VStr "http_error").
Proof.
  intros P params.
  destruct (@error_retry_classifies P params test_context
              [("message", VStr "rate limit exceeded")] "rate limit exceeded" []
              (@Dist.error P params test_context []).1
              (VStr "https://api.example.com")
              {| ro_method := VStr "GET";
                 ro_headers :=
                   {[ "User-Agent" := VStr "sgnl-generic-webhook/1.0.0";
                      "X-API-Key" := VStr "test-api-key-123456" ]};
                 ro_body := VUndefined |}
              {| statusCode := 503; response_headers := VObj [] |} "busy" [])
    as (r & Hr & Hcode & Hiff & Hstatus).
  - reflexivity.
  - reflexivity.
  - reflexivity.
  - left. split; reflexivity.
  - exists r. split; [exact Hr|]. split; [exact Hcode|].
    destruct Hstatus as [Hs|Hs]; [|exact Hs].
    apply Hiff in Hs as [[_ Hlt] | Hin]; [simpl in Hlt; lia | inversion Hin].
Defined.

Lemma invoke_header_precedence_witness :
  let P := Ref.platform [Ref.responds 200 "ok"] in
  let params : gmap string value :=
    {[ "method" := VStr "POST";
       "address" := VStr "https://api.example.com";
       "requestBody" := VStr (Ref.json "{'a':1}");
       "requestHeaders" :=
         VStr (Ref.json "{'Content-Type':'text/plain','X-API-Key':'mine'}") ]} in
  ∃ o url options,
    @Dist.invoke P params test_context [] =
      (o, [] ++ [EvHttp url options (@http P [] url options)]) ∧
    ro_headers options !! "Content-Type" = Some (VStr "text/plain") ∧
    ro_headers options !! "User-Agent" = Some (VStr "sgnl-generic-webhook/1.0.0") ∧
    ro_headers options !! "X-API-Key" = Some (VStr "test-api-key-123456").
Proof.
  intros P params.
  destruct (@invoke_header_precedence P params test_context
              "POST" "https://api.example.com" (VObj [("a", VNum 1)])
              (VObj [("Content-Type", VStr "text/plain"); ("X-API-Key", VStr "mine")]) [])
    as (o & url & options & Ho & Hk & _ & Hkey).
  - split; [reflexivity | done | reflexivity | done | by left].
  - by apply Parsed.
  - by apply Parsed.
  - exists o, url, options. split; [exact Ho|].
    split; [exact (Hk "Content-Type" ltac:(done) ltac:(done))|].
    split; [exact (Hk "User-Agent" ltac:(done) ltac:(done))|].
    apply Hkey; reflexivity.
Defined.

Lemma invoke_rejects_non_string_method_witness :
  let P := Ref.platform [Ref.responds 200 "ok"] in
  let params : gmap string value :=
    {[ "method" := VNum 7; "address" := VStr "https://api.example.com" ]} in
  ∃ e, is_error e ∧ @Dist.invoke P params test_context [] = (Throw e, []).
Proof.
  intros P params.
  destruct (@invoke_rejects_non_string_method P params test_context [])
    as (e & He & Hrun & _).
  - reflexivity.
  - intros m Hm. discriminate Hm.
  - exists e. split; [exact He | exact Hrun].
Defined.

Lemma script_invoke_classifies_witness :
  let P := Ref.platform [Ref.responds 404 "Not Found"] in
  let params : gmap string value :=
    {[ "method" := VStr "DELETE";
       "address" := VStr "https://api.example.com/users/123";
       "acceptedStatusCodes" := VArr [VNum 404] ]} in
  ∃ r, (@Script.invoke P params test_context []).1 = Return r ∧
       r !! "statusCode" = Some (VNum 404) ∧
       r !! "success" = Some (VBool true) ∧
       r !! "status" = None.
Proof.
  intros P params.
  destruct (@script_invoke_classifies P params test_context []
              (@Script.invoke P params test_context []).1
              (VStr "https://api.example.com/users/123")
              {| ro_method := VStr "DELETE";
                 ro_headers :=
                   {[ "User-Agent" := VStr "sgnl-generic-webhook/1.0.0";
                      "X-API-Key" := VStr "test-api-key-123456" ]};
                 ro_body := VUndefined |}
              {| statusCode := 404; response_headers := VObj [] |} "Not Found"
              [VNum 404])
    as (r & success & Hr & Hcode & _ & Hsucc & Hiff & Hstatus & _).
  - reflexivity.
  - right. reflexivity.
  - exists r. split; [exact Hr|]. split; [exact Hcode|]. split; [|exact Hstatus].
    rewrite Hsucc. do 2 f_equal. apply Hiff. right. apply list_elem_of_singleton.
    reflexivity.
Defined.

Lemma script_invoke_ok_ignores_accepted_witness :
  let P := Ref.platform [Ref.responds 204 EmptyString] in
  let params : gmap string value :=
    {[ "method" := VStr "GET";
       "address" := VStr "https://api.example.com";
       "acceptedStatusCodes" := VNum 404 ]} in
  ∃ r, (@Script.invoke P params test_context []).1 = Return r ∧
       r !! "success" = Some (VBool true) ∧
       r !! "statusCode" = Some (VNum 204).
Proof.
  intros P params.
  apply (@script_invoke_ok_ignores_accepted P params test_context []
           (@Script.invoke P params test_context []).1
           (VStr "https://api.example.com")
           {| ro_method := VStr "GET";
              ro_headers :=
                {[ "User-Agent" := VStr "sgnl-generic-webhook/1.0.0";
                   "X-API-Key" := VStr "test-api-key-123456" ]};
              ro_body := VUndefined |}
           {| statusCode := 204; response_headers := VObj [] |} EmptyString).
  - reflexivity.
  - simpl. lia.
Defined.

Lemma script_invoke_rethrows_witness :
  let P := Ref.platform [] in
  let params : gmap string value :=
    {[ "method" := VStr "GET"; "address" := VStr "https://api.example.com" ]} in
  (@Script.invoke P params test_context []).1 =
    Throw (Error "connect ECONNREFUSED 127.0.0.1:443").
Proof.
  intros P params.
  apply (@script_invoke_rethrows P params test_context []
           (@Script.invoke P params test_context []).1
           (VStr "https://api.example.com")
           {| ro_method := VStr "GET";
              ro_headers :=
                {[ "User-Agent" := VStr "sgnl-generic-webhook/1.0.0";
                   "X-API-Key" := VStr "test-api-key-123456" ]};
              ro_body := VUndefined |}
           "Error" "connect ECONNREFUSED 127.0.0.1:443").
  reflexivity.
Defined.

Lemma script_invoke_rejects_headers_witness :
  let P := Ref.platform [Ref.responds 200 "ok"] in
  let params : gmap string value :=
    {[ "method" := VStr "GET";
       "address" := VStr "https://api.example.com";
       "requestHeaders" := VStr "X-Custom: value" ]} in
  @Script.invoke P params test_context [] =
    (Throw (Error "Invalid JSON in requestHeaders: Unexpected token in JSON"), []).
Proof.
  intros P params.
  apply (@script_invoke_rejects_headers P params test_context
           "X-Custom: value" "Unexpected token in JSON" []);
    (reflexivity || done).
Defined.

Lemma script_authentication_first_match_witness :
  let P := Ref.platform [Ref.responds 200 "ok"] in
  let context :=
    Ref.context ∅ {[ "AUTHORIZATION_HEADER" := VStr "Basic dXNlcjpwdw==";
                     "BEARER_TOKEN" := VStr "token-2" ]} VUndefined in
  let params : gmap string value :=
    {[ "method" := VStr "GET"; "address" := VStr "https://api.example.com" ]} in
  let options :=
    {| ro_method := VStr "GET";
       ro_headers := {[ "User-Agent" := VStr "sgnl-generic-webhook/1.0.0";
                        "Authorization" := VStr "Basic dXNlcjpwdw==" ]};
       ro_body := VUndefined |} in
  ∃ headers,
    ro_headers options = <["Authorization" := VStr "Basic dXNlcjpwdw=="]> headers ∧
    ∃ o answer,
      @Script.invoke P params (without_secrets context) [] =
        (o, [] ++ [EvHttp (VStr "https://api.example.com")
                     (with_headers options headers) answer]).
Proof.
  intros P context params options.
  destruct (@script_authentication_first_match P params context []
              (@Script.invoke P params context []).1
              (VStr "https://api.example.com") options (Ref.responds 200 "ok"))
    as (headers & Hsame & Hkey); [reflexivity|].
  exists headers. split; [exact Hkey | exact Hsame].
Defined.

Lemma script_content_type_rule_witness :
  let P := Ref.platform [Ref.responds 200 "ok"] in
  let params : gmap string value :=
    {[ "method" := VStr "post";
       "address" := VStr "https://api.example.com";
       "requestBody" := VStr "plain text";
       "requestHeaders" :=
         VObj [("__proto__", VObj [("content-type", VStr "text/plain")])] ]} in
  let options :=
    {| ro_method := VStr "post";
       ro_headers := {[ "User-Agent" := VStr "sgnl-generic-webhook/1.0.0";
                        "X-API-Key" := VStr "test-api-key-123456" ]};
       ro_body := VStr "plain text" |} in
  (@Script.invoke P params test_context []).2 =
    [EvHttp (VStr "https://api.example.com") options (Ref.responds 200 "ok")] ∧
  ro_headers options !! "Content-Type" = None ∧
  ro_headers options !! "content-type" = None ∧
  ro_headers options !! "__proto__" = None.
Proof.
  intros P params options.
  destruct (@script_content_type_rule P params test_context []
              (@Script.invoke P params test_context []).1
              (VStr "https://api.example.com") options (Ref.responds 200 "ok"))
    as (customHeaders & Hsh & _ & Hk & Hct); [reflexivity|].
  assert (customHeaders =
            VObj [("__proto__", VObj [("content-type", VStr "text/plain")])]) as ->.
  { inversion Hsh as [v Hv | v Hv Hns | s parsed Hs Hp]; [discriminate Hv | reflexivity]. }
  split; [reflexivity|]. split; [exact Hct|].
  split; [exact (Hk "content-type" ltac:(done)) | exact (Hk "__proto__" ltac:(done))].
Defined.

Lemma manual_parse_accepts_witness :
  DistUrl.manual_parse "https://api.example.com:8443/users?active=1" =
    Some {| DistUrl.protocol := "https:";
            DistUrl.hostname := "api.example.com";
            DistUrl.port := VStr "8443";
            DistUrl.pathname := "/users?active=1";
            DistUrl.search := EmptyString |}.
Proof.
  apply (manual_parse_accepts true "api.example.com" (Some "8443") "/users?active=1").
  - done.
  - reflexivity.
  - reflexivity.
  - intros q [= <-]. split; reflexivity.
  - right. split; reflexivity.
Defined.

Lemma manual_parse_sound_witness :
  ∃ host tail,
    "http://localhost:3000" = "http:" +:+ "//" +:+ host +:+ tail ∧
    DistUrl.before_colon host = "localhost" ∧
    DistUrl.request_path
      {| DistUrl.protocol := "http:"; DistUrl.hostname := "localhost";
         DistUrl.port := VStr "3000"; DistUrl.pathname := "/";
         DistUrl.search := EmptyString |} =
      match tail with EmptyString => "/" | _ => tail end.
Proof.
  destruct (manual_parse_sound "http://localhost:3000"
              {| DistUrl.protocol := "http:"; DistUrl.hostname := "localhost";
                 DistUrl.port := VStr "3000"; DistUrl.pathname := "/";
                 DistUrl.search := EmptyString |})
    as (_ & host & tail & Hurl & _ & _ & Hhost & _ & _ & Hpath & _);
    [reflexivity|].
  exists host, tail. split; [exact Hurl|]. split; [by rewrite <- Hhost | exact Hpath].
Defined.


(** The runner's own parameters pass validation: on a host that answers
    200 the job completes, with one request carrying the API key. *)
Example runDev_completes :
  let P := Ref.platform [Ref.responds 200 "ok"] in
  ∃ r url options answer,
    @DevRunner.runDev P "2024-01-01T00:00:00.000Z" [] =
      (Return (DevRunner.JobCompleted r), [EvHttp url options answer]) ∧
    r !! "success" = Some (VBool true) ∧
    ro_method options = VStr "POST" ∧
    ro_headers options !! "X-API-Key" = Some (VStr "dev-test-key-123456") ∧
    ro_headers options !! "X-Test-Header" = Some (VStr "development").
Proof. intros P. eexists _, _, _, _. repeat split; reflexivity. Qed.

(** ** Where the code departs from the specification *)

(** C4.  [invoke] never falls back on a base URL: without an address it
    throws "address parameter is required", with or without
    WEBHOOK_BASE_URL in the environment, in both implementations. *)
Lemma invoke_ignores_base_url :
  let P := Ref.platform [Ref.responds 200 "[]"] in
  @Dist.invoke P {[ "method" := VStr "GET" ]}
     (Ref.context ∅ {[ "API_KEY" := VStr "test-api-key-123456" ]} (VObj [])) [] =
    (Throw (Error "address parameter is required"), []) ∧
  @Dist.invoke P {[ "method" := VStr "GET"; "addressSuffix" := VStr "/users" ]}
     test_context [] =
    (Throw (Error "address parameter is required"), []) ∧
  @Script.invoke P {[ "method" := VStr "GET"; "addressSuffix" := VStr "/users" ]}
     test_context [] =
    (Throw (Error "address parameter is required"), []) ∧
  str_includes "must be provided" "address parameter is required" = false.
Proof. repeat split; reflexivity. Qed.

(** C5 fails as stated: an empty [requestBody] is a string that is not JSON
    text, and [invoke] sends the request; a missing method, or an invalid
    body next to invalid headers, is reported under another message. *)
Lemma invoke_skips_empty_body :
  let P := Ref.platform [Ref.responds 200 "ok"] in
  let invalid := VStr (Ref.json "{'invalid': json}") in
  @JSON_parse P EmptyString = inl "Unexpected token in JSON" ∧
  (∃ r, @Dist.invoke P
          {[ "method" := VStr "POST";
             "address" := VStr "https://api.example.com";
             "requestBody" := VStr EmptyString ]} test_context [] =
        (Return r, [EvHttp (VStr "https://api.example.com")
                      {| ro_method := VStr "POST";
                         ro_headers :=
                           {[ "User-Agent" := VStr "sgnl-generic-webhook/1.0.0";
                              "X-API-Key" := VStr "test-api-key-123456" ]};
                         ro_body := VUndefined |}
                      (Ref.responds 200 "ok")]) ∧
        r !! "status" = Some (VStr "success")) ∧
  @Dist.invoke P {[ "requestBody" := invalid ]} test_context [] =
    (Throw (Error "HTTP method is required"), []) ∧
  @Dist.invoke P
    {[ "method" := VStr "POST";
       "address" := VStr "https://api.example.com";
       "requestBody" := invalid;
       "requestHeaders" := invalid ]} test_context [] =
    (Throw (Error "Invalid JSON in requestBody: Unexpected token in JSON"), []).
Proof.
  intros P invalid. split; [reflexivity|]. split.
  - eexists. split; reflexivity.
  - split; reflexivity.
Qed.

(** C6 fails as stated: a secret that is present but empty is passed over.
    With API_KEY the empty string and a BEARER_TOKEN, the request carries
    "Authorization: Bearer <token>" and no "X-API-Key". *)
Lemma authentication_skips_empty_secret :
  let P := Ref.platform [Ref.responds 200 "ok"] in
  let context :=
    Ref.context ∅ {[ "API_KEY" := VStr EmptyString; "BEARER_TOKEN" := VStr "t" ]}
      VUndefined in
  let params : gmap string value :=
    {[ "method" := VStr "GET"; "address" := VStr "https://api.example.com" ]} in
  let options :=
    {| ro_method := VStr "GET";
       ro_headers := {[ "User-Agent" := VStr "sgnl-generic-webhook/1.0.0";
                        "Authorization" := VStr "Bearer t" ]};
       ro_body := VUndefined |} in
  secrets context !! "API_KEY" = Some (VStr EmptyString) ∧
  (@Dist.invoke P params context []).2 =
    [EvHttp (VStr "https://api.example.com") options (Ref.responds 200 "ok")] ∧
  ro_headers options !! "X-API-Key" = None ∧
  ro_headers options !! "Authorization" = Some (VStr "Bearer t").
Proof. intros P context params options. repeat split; reflexivity. Qed.

(** C7 fails as stated: with a lower-case content-type among the custom
    headers, the request still carries "Content-Type: application/json",
    next to it. *)
Lemma invoke_sets_content_type_beside_custom :
  let P := Ref.platform [Ref.responds 200 "ok"] in
  let params : gmap string value :=
    {[ "method" := VStr "POST";
       "address" := VStr "https://api.example.com";
       "requestBody" := VStr (Ref.json "{'a':1}");
       "requestHeaders" := VStr (Ref.json "{'content-type':'text/plain'}") ]} in
  let options :=
    {| ro_method := VStr "POST";
       ro_headers := {[ "User-Agent" := VStr "sgnl-generic-webhook/1.0.0";
                        "Content-Type" := VStr "application/json";
                        "content-type" := VStr "text/plain";
                        "X-API-Key" := VStr "test-api-key-123456" ]};
       ro_body := VStr (Ref.json "{'a':1}") |} in
  (@Dist.invoke P params test_context []).2 =
    [EvHttp (VStr "https://api.example.com") options (Ref.responds 200 "ok")] ∧
  @JSON_parse P (Ref.json "{'content-type':'text/plain'}") =
    inr (VObj [("content-type", VStr "text/plain")]) ∧
  ro_headers options !! "Content-Type" = Some (VStr "application/json") ∧
  ro_headers options !! "content-type" = Some (VStr "text/plain").
Proof. repeat split; reflexivity. Qed.

(** C8 fails as stated: the test suite's context has an empty
    [partial_results] object, and [halt] reports it as logged. *)
Lemma halt_logs_empty_partial_results :
  let P := Ref.platform [] in
  partial_results test_context = VObj [] ∧
  ∃ r, @Dist.halt P {[ "method" := VStr "POST"; "reason" := VStr "cancellation" ]}
         test_context [] = (Return r, []) ∧
       r !! "partial_results_logged" = Some (VBool true).
Proof.
  intros P. split; [reflexivity|]. eexists. split; reflexivity.
Qed.

(** C10 fails as stated: in [src/script.mjs] a string [requestHeaders] that
    is not JSON is a validation failure, and a string body is not sent with
    a GET. *)
Lemma script_invoke_rejects_invalid_headers :
  let P := Ref.platform [Ref.responds 200 "ok"] in
  @Script.invoke P
    {[ "method" := VStr "GET";
       "address" := VStr "https://api.example.com";
       "requestHeaders" := VStr (Ref.json "{'invalid': json}") ]}
    test_context [] =
    (Throw (Error "Invalid JSON in requestHeaders: Unexpected token in JSON"), []) ∧
  (@Script.invoke P
     {[ "method" := VStr "GET";
        "address" := VStr "https://api.example.com";
        "requestBody" := VStr "not json" ]}
     test_context []).2 =
    [EvHttp (VStr "https://api.example.com")
       {| ro_method := VStr "GET";
          ro_headers := {[ "User-Agent" := VStr "sgnl-generic-webhook/1.0.0";
                           "X-API-Key" := VStr "test-api-key-123456" ]};
          ro_body := VUndefined |}
       (Ref.responds 200 "ok")].
Proof. split; reflexivity. Qed.
